(** * tradeship: the dependency registry and the import rewriter

    A shallow embedding of [src/dep-registry.js], [src/lib/importer.js] and
    the entry point of [src/importer.js], with the properties of the
    registry's reverse index, of identifier derivation, of the composed
    import block and of the rewritten source text.

    JavaScript strings are lists of code units ([ascii], the Latin-1 range);
    arrays are lists; objects used as maps are association lists in
    insertion order; a [throw] is the [Throw] constructor of [result]. *)

From Stdlib Require Import List Ascii String Arith NArith ZArith Lia Bool.
From Stdlib Require Import Sorting.Sorted Sorting.Permutation.
From Equations Require Import Equations.
Import ListNotations.

Open Scope string_scope.
Open Scope nat_scope.
Open Scope list_scope.

(** ** Strings *)

Definition str := list ascii.

Definition lit (s : string) : str := list_ascii_of_string s.
Coercion lit : string >-> str.

Definition cat (a b : str) : str := a ++ b.
Infix "+++" := cat (at level 60, right associativity).

Fixpoint str_eqb (a b : str) : bool :=
  match a, b with
  | [], [] => true
  | x :: a', y :: b' => Ascii.eqb x y && str_eqb a' b'
  | _, _ => false
  end.

(** [a < b] on JavaScript strings: lexicographic on code units. *)
Fixpoint str_compare (a b : str) : comparison :=
  match a, b with
  | [], [] => Eq
  | [], _ :: _ => Lt
  | _ :: _, [] => Gt
  | x :: a', y :: b' =>
      match Ascii.compare x y with
      | Eq => str_compare a' b'
      | c => c
      end
  end.

Definition str_ltb (a b : str) : bool :=
  match str_compare a b with Lt => true | _ => false end.

Definition str_leb (a b : str) : bool :=
  match str_compare a b with Gt => false | _ => true end.

(** ** Exceptions *)

Inductive result (A : Type) : Type :=
| Ok (a : A)
| Throw (msg : str).
Arguments Ok {A} a.
Arguments Throw {A} msg.

Definition bind {A B} (r : result A) (k : A -> result B) : result B :=
  match r with
  | Ok a => k a
  | Throw m => Throw m
  end.

Notation "'do' x <- r ; k" := (bind r (fun x => k))
  (at level 10, x pattern, r at level 100, k at level 200).

Fixpoint mapM {A B} (f : A -> result B) (l : list A) : result (list B) :=
  match l with
  | [] => Ok []
  | x :: l' => do y <- f x; do ys <- mapM f l'; Ok (y :: ys)
  end.

(** ** JavaScript string and array primitives *)

Module Js.

Definition nl : ascii := "010"%char.

(** The one-character string of a line feed. *)
Definition NL : str := [nl].

(** Character classes of the regular expressions used by the sources. *)
Definition in_range (lo hi : N) (c : ascii) : bool :=
  (lo <=? N_of_ascii c)%N && (N_of_ascii c <=? hi)%N.

Definition is_lower (c : ascii) : bool := in_range 97 122 c.
Definition is_upper (c : ascii) : bool := in_range 65 90 c.
Definition is_digit (c : ascii) : bool := in_range 48 57 c.
Definition is_alnum (c : ascii) : bool := is_lower c || is_upper c || is_digit c.

(** [\s] restricted to the code units below 256. *)
Definition is_space (c : ascii) : bool :=
  in_range 9 13 c || (N_of_ascii c =? 32)%N || (N_of_ascii c =? 160)%N.

(** [String.prototype.toUpperCase] on one code unit; exact on ASCII, the
    only characters it is applied to in the sources. *)
Definition toUpperCase (c : ascii) : ascii :=
  if is_lower c then ascii_of_N (N_of_ascii c - 32) else c.

(** [s[0].toUpperCase() + s.slice(1)] for a non-empty [s]. *)
Definition capitalize (s : str) : str :=
  match s with
  | [] => []
  | c :: s' => toUpperCase c :: s'
  end.

Fixpoint startsWith (p s : str) : bool :=
  match p, s with
  | [], _ => true
  | x :: p', y :: s' => Ascii.eqb x y && startsWith p' s'
  | _ :: _, [] => false
  end.

Definition endsWith (p s : str) : bool := startsWith (rev p) (rev s).

Definition contains_char (c : ascii) (s : str) : bool :=
  existsb (Ascii.eqb c) s.

(** [Array.prototype.join]. *)
Fixpoint join (sep : str) (l : list str) : str :=
  match l with
  | [] => []
  | [x] => x
  | x :: l' => x ++ sep ++ join sep l'
  end.

(** [s.split(c)] for a one-character separator. *)
Fixpoint split_char (c : ascii) (s : str) : list str :=
  match s with
  | [] => [[]]
  | x :: s' =>
      if Ascii.eqb x c then [] :: split_char c s'
      else match split_char c s' with
           | [] => [[x]]
           | p :: ps => (x :: p) :: ps
           end
  end.

(** [s.split(/[C]+/)] where [sep] decides the class [C]: the pieces between
    maximal runs of separators, empty pieces at both ends included. *)
Fixpoint split_runs_aux (sep : ascii -> bool) (in_sep : bool) (s : str)
  : list str :=
  match s with
  | [] => [[]]
  | x :: s' =>
      if sep x then
        if in_sep then split_runs_aux sep true s'
        else [] :: split_runs_aux sep true s'
      else match split_runs_aux sep false s' with
           | [] => [[x]]
           | p :: ps => (x :: p) :: ps
           end
  end.

Definition split_runs (sep : ascii -> bool) (s : str) : list str :=
  split_runs_aux sep false s.

Definition nonEmpty (s : str) : bool :=
  match s with [] => false | _ => true end.

(** [arr.map((p, i) => ...)]. *)
Fixpoint mapi_from {A B} (i : nat) (f : A -> nat -> B) (l : list A) : list B :=
  match l with
  | [] => []
  | x :: l' => f x i :: mapi_from (S i) f l'
  end.

Definition mapi {A B} (f : A -> nat -> B) (l : list A) : list B :=
  mapi_from 0 f l.

(** [Array.prototype.sort] with a comparator that is a strict order on the
    elements, [lt a b] standing for a negative result of the comparator; the
    result is the sorted permutation, computed here by insertion. *)
Section Sort.
Context {A : Type} (lt : A -> A -> bool).

Fixpoint insert (x : A) (l : list A) : list A :=
  match l with
  | [] => [x]
  | y :: l' => if lt y x then y :: insert x l' else x :: l
  end.

Fixpoint sort (l : list A) : list A :=
  match l with
  | [] => []
  | x :: l' => insert x (sort l')
  end.

End Sort.

(** [arr.sort()] on strings, and [arr.sort((a, b) => a - b)] on numbers. *)
Definition sort_strings (l : list str) : list str := sort str_ltb l.
Definition sort_numbers (l : list nat) : list nat := sort Nat.ltb l.

(** The property names that every plain object inherits from
    [Object.prototype]. Each of them reads as a function, [__proto__] as the
    prototype itself: a truthy value without properties [id], [priority],
    [type] or [version]. *)
Definition prototypeKeys : list str :=
  map lit
    ["constructor"; "__defineGetter__"; "__defineSetter__"; "hasOwnProperty";
     "__lookupGetter__"; "__lookupSetter__"; "isPrototypeOf";
     "propertyIsEnumerable"; "toString"; "valueOf"; "__proto__";
     "toLocaleString"]%string.

Definition inherited (k : str) : bool := existsb (str_eqb k) prototypeKeys.

(** The value of [o[k]] for a plain object [o]: an own property, else a
    member inherited from [Object.prototype], else [undefined]. *)
Inductive member (V : Type) :=
| Own (v : V)
| Inherited
| Undefined.
Arguments Own {V} v.
Arguments Inherited {V}.
Arguments Undefined {V}.

(** Objects used as maps: the own keys in insertion order. Keys that look
    like array indices, which JavaScript enumerates first, are not module ids
    or export names. [get] looks an own property up; [read] is [o[k]], which
    also sees what [Object.prototype] holds. *)
Section Obj.
Context {V : Type}.

Definition obj := list (str * V).

Fixpoint get (k : str) (o : obj) : option V :=
  match o with
  | [] => None
  | (k', v) :: o' => if str_eqb k k' then Some v else get k o'
  end.

(** [o[k] = v]: in place when [k] is already a key, appended otherwise. *)
Fixpoint set (k : str) (v : V) (o : obj) : obj :=
  match o with
  | [] => [(k, v)]
  | (k', v') :: o' =>
      if str_eqb k k' then (k, v) :: o' else (k', v') :: set k v o'
  end.

(** [delete o[k]]. *)
Fixpoint delete (k : str) (o : obj) : obj :=
  match o with
  | [] => []
  | (k', v') :: o' =>
      if str_eqb k k' then delete k o' else (k', v') :: delete k o'
  end.

Definition keys (o : obj) : list str := map fst o.

Definition read (k : str) (o : obj) : member V :=
  match get k o with
  | Some v => Own v
  | None => if inherited k then Inherited else Undefined
  end.

End Obj.
Arguments obj V : clear implicits.

(** Truthiness of an optional string argument: [undefined] and the empty
    string are falsy. *)
Definition truthy (o : option str) : bool :=
  match o with
  | Some (_ :: _) => true
  | _ => false
  end.

End Js.

(** ** Node's [path] module (POSIX flavour) *)

Module Path.

Definition slash : ascii := "/"%char.
Definition dot : ascii := "."%char.

Fixpoint dropWhile {A} (p : A -> bool) (l : list A) : list A :=
  match l with
  | [] => []
  | x :: l' => if p x then dropWhile p l' else l
  end.

Fixpoint takeWhile {A} (p : A -> bool) (l : list A) : list A :=
  match l with
  | [] => []
  | x :: l' => if p x then x :: takeWhile p l' else []
  end.

Definition is_slash (c : ascii) : bool := Ascii.eqb c slash.
Definition is_dot (c : ascii) : bool := Ascii.eqb c dot.

(** [path.basename(p)]: the last segment, trailing slashes ignored. *)
Definition basename (p : str) : str :=
  rev (takeWhile (fun c => negb (is_slash c)) (dropWhile is_slash (rev p))).

(** [path.extname(p)]: from the last dot of the last segment, unless there
    is none, it is the segment's first character, or the segment is [..]. *)
Definition extname (p : str) : str :=
  let seg := basename p in
  let r := rev seg in
  let suffix := takeWhile (fun c => negb (is_dot c)) r in
  match dropWhile (fun c => negb (is_dot c)) r with
  | [] => []
  | _ :: [] => []
  | _ :: _ :: _ => if str_eqb seg ".." then [] else dot :: rev suffix
  end.

(** [path.basename(p, ext)]: the suffix [ext] is removed from the last
    segment unless that segment is [ext] itself. *)
Definition basename_ext (p ext : str) : str :=
  match ext with
  | [] => basename p
  | _ =>
      if str_eqb ext p then []
      else
        let seg := basename p in
        if Js.endsWith ext seg && negb (str_eqb seg ext)
        then firstn (List.length seg - List.length ext) seg
        else seg
  end.

Definition isAbsolute (p : str) : bool :=
  match p with
  | c :: _ => is_slash c
  | [] => false
  end.

Fixpoint dropCommon (a b : list str) : list str * list str :=
  match a, b with
  | x :: a', y :: b' => if str_eqb x y then dropCommon a' b' else (a, b)
  | _, _ => (a, b)
  end.

(** [path.relative(from, to)] for two normalized absolute paths: one [..]
    for every segment of [from] below the common directory, then the rest of
    [to]. *)
Definition relative (from to : str) : str :=
  let segments p := filter Js.nonEmpty (Js.split_char slash p) in
  let '(f, t) := dropCommon (segments from) (segments to) in
  Js.join [slash] (map (fun _ => lit "..") f ++ t).

End Path.

(** ** [common.js]: the regular expressions shared by the modules *)

Module Common.

(** Modelled from the spec: [fileRegex] of the absent [common.js]; a file id
    starts with [./], [../] or [/]. *)
Definition fileRegex (id : str) : bool :=
  Js.startsWith "/" id || Js.startsWith "./" id || Js.startsWith "../" id.

(** Modelled from the spec: [pkgRegex] of the absent [common.js]; a package
    id does not start with [./], [../] or [/] and has no [..] segment
    ([fs], [lodash], [@scope/pkg], [@scope/pkg/sub]). *)
Definition pkgRegex (id : str) : bool :=
  Js.nonEmpty id && negb (fileRegex id) &&
  negb (existsb (str_eqb "..") (Js.split_char Path.slash id)).

(** Modelled from the spec: [whiteRegex] of the absent [common.js]; a
    whitespace-only line. *)
Definition whiteRegex (s : str) : bool := forallb Js.is_space s.

End Common.

Definition strs (l : list string) : list str := map lit l.

(** ** [src/dep-registry.js] *)

Module DepRegistry.

(** [DepRegistry.types]. *)
Module types.
Inductive t := ident | default | prop.

Definition eqb (a b : t) : bool :=
  match a, b with
  | ident, ident | default, default | prop, prop => true
  | _, _ => false
  end.
End types.

(** A version is a string (the runtime version, a manifest range) or a number
    (the modification time of a file); [!==] never equates the two. *)
Inductive Version :=
| VString (s : str)
| VNumber (n : Z).

Definition version_eqb (a b : Version) : bool :=
  match a, b with
  | VString s, VString s' => str_eqb s s'
  | VNumber n, VNumber n' => Z.eqb n n'
  | _, _ => false
  end.

Record Entry := mkEntry {
  version : Version;
  idents : list str;
  defaults : list str;
  props : list str
}.

Definition Registry := Js.obj Entry.

Record DepInfo := mkDep {
  id : str;
  priority : nat;
  type : types.t
}.

Definition Deps := Js.obj DepInfo.

(** What [propsScript] evaluates to when it is run in the VM. *)
Record Probe := mkProbe {
  probe_props : list str;
  hasDefault : bool
}.

(** What [parser.run] returns for a project file. *)
Record Exports := mkExports {
  exp_idents : list str;
  exp_defaults : list str;
  exp_props : list str;
  hasExports : bool
}.

(** [/^[$a-z_][0-9a-z_$]*$/i] *)
Definition ident_start (c : ascii) : bool :=
  Js.is_lower c || Js.is_upper c || Ascii.eqb c "$" || Ascii.eqb c "_".

Definition ident_part (c : ascii) : bool :=
  ident_start c || Js.is_digit c.

Definition identRegex (s : str) : bool :=
  match s with
  | [] => false
  | c :: s' => ident_start c && forallb ident_part s'
  end.

(** [/[\W_]+/g]: a run of characters other than letters and digits. *)
Definition nonWord (c : ascii) : bool := negb (Js.is_alnum c).

(** The [camelCase] of [populateIdents]: the pieces of
    [base.split(/[\W_]+/g)] that are not empty, each but the first mapped to
    [p[0].toUpperCase() + p.slice(1)], joined without separator. *)
Definition camelCaseOf (base : str) : str :=
  List.concat
    (Js.mapi (fun p i => if i =? 0 then p else Js.capitalize p)
       (filter Js.nonEmpty (Js.split_runs nonWord base))).

(** [this.deps] is a plain object: for a name that [Object.prototype] holds
    [search] returns the inherited member, which is no dep. *)
Definition search (deps : Deps) (name : str) : Js.member DepInfo :=
  Js.read name deps.

(** [arr.push(x)] *)
Definition push {A} (l : list A) (x : A) : list A := l ++ [x].

Section Registry.

(** [pkgRegex] of the absent [common.js]. *)
Variable pkgRegex : str -> bool.

(** The [base] of [populateIdents]. *)
Definition baseOf (id : str) : str :=
  if negb (Js.contains_char Path.slash id) then id
  else if pkgRegex id then Path.basename id
  else Path.basename_ext id (Path.extname id).

Definition populateIdents (entry : Entry) (id : str) : Entry :=
  let base := baseOf id in
  let idents1 :=
    if identRegex base then push (idents entry) base else idents entry in
  let camelCase := camelCaseOf base in
  let idents2 :=
    if 0 <? List.length camelCase then
      let idents' :=
        if negb (str_eqb camelCase base) then push idents1 camelCase
        else idents1 in
      let classCase := Js.capitalize camelCase in
      push idents' classCase
    else idents1 in
  mkEntry (version entry) idents2 (defaults entry) (props entry).

(** [probe] is the outcome of [vm.run(propsScript)]: [None] when it threw. *)
Definition populatePropsDefaults (entry : Entry) (probe : option Probe)
  : Entry :=
  match probe with
  | None => entry
  | Some p =>
      let props' := props entry ++ probe_props p in
      if hasDefault p then
        mkEntry (version entry) [] (defaults entry ++ idents entry) props'
      else
        mkEntry (version entry) (idents entry) (defaults entry) props'
  end.

(** [entry.idents.forEach(i => { if (entry.defaults.indexOf(i) === -1)
    entry.defaults.push(i); })] *)
Definition promote (defaults idents : list str) : list str :=
  fold_left
    (fun ds i => if existsb (str_eqb i) ds then ds else push ds i)
    idents defaults.

(** [exports] is the value of [parser.run(code)]: [None] when falsy. *)
Definition populateFile (entry : Entry) (filePath : str)
  (exports : option Exports) : Entry :=
  match exports with
  | Some e =>
      if hasExports e then
        let e1 :=
          mkEntry (version entry)
            (idents entry ++ exp_idents e)
            (defaults entry ++ exp_defaults e)
            (props entry ++ exp_props e) in
        let e2 := populateIdents e1 filePath in
        if 0 <? List.length (defaults e2) then
          mkEntry (version e2) [] (promote (defaults e2) (idents e2))
            (props e2)
        else e2
      else entry
  | None => entry
  end.

(** [register] stores an entry under [id] and returns the fresh entry, or
    [None] when the cached one is reused. A member that [cache] inherits
    under [id] has no [version]: [undefined !== version] holds and the entry
    is fresh, as when [cache] has no such key. *)
Definition register (cache : Registry) (id : str) (v : Version)
  (registry : Registry) : Registry * option Entry :=
  match Js.get id cache with
  | Some c =>
      if version_eqb (version c) v then (Js.set id c registry, None)
      else let entry := mkEntry v [] [] [] in
           (Js.set id entry registry, Some entry)
  | None =>
      let entry := mkEntry v [] [] [] in
      (Js.set id entry registry, Some entry)
  end.

(** An inherited member is truthy and has neither [priority] nor [type]:
    [undefined < priority] and [undefined === types.prop] are false, and
    nothing is stored. *)
Definition associate (deps : Deps) (name id : str) (priority : nat)
  (type : types.t) : Deps :=
  match Js.read name deps with
  | Js.Own dep =>
      if (DepRegistry.priority dep <? priority)
         || (types.eqb (DepRegistry.type dep) types.prop
             && negb (types.eqb type types.prop))
      then Js.set name (mkDep id priority type) deps
      else deps
  | Js.Inherited => deps
  | Js.Undefined => Js.set name (mkDep id priority type) deps
  end.

(** The [priority] that [computeDeps] gives the entries of [id]. [node] is
    a plain object with [true] under every built-in module: [node[id]] is
    also truthy for an id that [Object.prototype] holds. *)
Definition priorityOf (builtinLibs : list str) (id : str) : nat :=
  let node := fold_left (fun node l => Js.set l true node) builtinLibs [] in
  let isNode :=
    match Js.read id node with
    | Js.Own b => b
    | Js.Inherited => true
    | Js.Undefined => false
    end in
  if isNode then 3
  else if pkgRegex id then 1
  else 2.

(** [names.forEach(name => this.associate({ name, id, priority, type }))] *)
Definition associateAll (id : str) (priority : nat) (type : types.t)
  (names : list str) (deps : Deps) : Deps :=
  fold_left (fun d name => associate d name id priority type) names deps.

(** [for (const id in this.registry)] visits the ids in the order they were
    registered. *)
Definition computeDeps (builtinLibs : list str) (registry : Registry)
  : Deps :=
  fold_left
    (fun deps '(id, entry) =>
       let priority := priorityOf builtinLibs id in
       let deps1 := associateAll id priority types.ident (idents entry) deps in
       let deps2 :=
         associateAll id priority types.default (defaults entry) deps1 in
       associateAll id priority types.prop (props entry) deps2)
    registry [].

(** The environment [populate] reads: the built-in modules and what probing
    each yields, the runtime version, and, when a manifest is found, the
    declared dependencies and the project files in the order the directory
    walk registers them. *)
Record Package := mkPackage {
  pkg_id : str;
  pkg_version : str;
  pkg_probe : option Probe
}.

Record File := mkFile {
  file_path : str;
  mtime : Z;
  parsed : option Exports
}.

Record Project := mkProject {
  dependencies : list Package;
  files : list File
}.

Record World := mkWorld {
  builtinLibs : list (str * option Probe);
  processVersion : str;
  project : option Project
}.

(** The entry returned by [register] is the object stored in the registry:
    filling it in fills the registry's entry. *)
Definition fillBuiltin (cache : Registry) (pv : str) (registry : Registry)
  (b : str * option Probe) : Registry :=
  let '(id, probe) := b in
  match register cache id (VString pv) registry with
  | (registry', Some entry) =>
      Js.set id (populatePropsDefaults (populateIdents entry id) probe)
        registry'
  | (registry', None) => registry'
  end.

Definition fillPackage (cache : Registry) (registry : Registry) (p : Package)
  : Registry :=
  match register cache (pkg_id p) (VString (pkg_version p)) registry with
  | (registry', Some entry) =>
      Js.set (pkg_id p)
        (populatePropsDefaults (populateIdents entry (pkg_id p)) (pkg_probe p))
        registry'
  | (registry', None) => registry'
  end.

(** One accepted file of [populateDir]. *)
Definition fillFile (cache : Registry) (registry : Registry) (f : File)
  : Registry :=
  match register cache (file_path f) (VNumber (mtime f)) registry with
  | (registry', Some entry) =>
      Js.set (file_path f) (populateFile entry (file_path f) (parsed f))
        registry'
  | (registry', None) => registry'
  end.

(** The registry [populate] builds, which is also what it writes to the
    cache file. *)
Definition populateRegistry (cache : Registry) (w : World) : Registry :=
  let r1 := fold_left (fillBuiltin cache (processVersion w)) (builtinLibs w) [] in
  match project w with
  | Some p =>
      let r2 := fold_left (fillPackage cache) (dependencies p) r1 in
      fold_left (fillFile cache) (files p) r2
  | None => r1
  end.

Definition populate (cache : Registry) (w : World) : Registry * Deps :=
  let registry := populateRegistry cache w in
  (registry, computeDeps (map fst (builtinLibs w)) registry).

(** Successive runs on one project: each reads the cache the previous one
    wrote; the first finds none. *)
Definition populateRuns (ws : list World) : Registry :=
  fold_left populateRegistry ws [].

End Registry.

End DepRegistry.

(** ** [src/lib/importer.js] *)

Module LibImporter.

Import DepRegistry.

Record Position := mkPos { line : nat; column : nat }.

(** [node.loc], with its fields [start] and [end]; a node is given by its
    location. *)
Record Loc := mkLoc { loc_start : Position; loc_end : Position }.

(** An existing import as the visitors report it; [node] is the location of
    its statement. *)
Record Req := mkReq {
  node : option Loc;
  depID : str;
  req_idents : option (list str);
  req_defaults : option (list str);
  req_props : option (list str)
}.

Record Style := mkStyle {
  requireKeyword : str;
  kind : str;
  quote : str;
  semi : str;
  tab : str;
  trailingComma : str
}.

Record Parent := mkParent { parent_type : str; operator : str }.

Record Reference := mkRef {
  name : str;
  parent : option Parent;
  writeExpr : bool
}.

(** [set] holds the names for which [globalScope.set.get(name)] is a
    binding. *)
Record GlobalScope := mkScope {
  through : list Reference;
  set : list str
}.

Record Context := mkContext {
  reqs : list Req;
  style : Style;
  textLines : list str;
  getUseStrict : option Loc;
  endsLine : Loc -> bool;
  getGlobalScope : GlobalScope
}.

(** Modelled from the spec: [getLineText] of the absent [walker.js]; lines
    are numbered from 1 and line [n] is [textLines[n - 1]], [undefined]
    outside the text. *)
Definition getLineText (textLines : list str) (n : nat) : option str :=
  match n with
  | 0 => None
  | S k => nth_error textLines k
  end.

(** [String(x)] of a line text. *)
Definition toString (o : option str) : str :=
  match o with
  | Some s => s
  | None => "undefined"
  end.

Record Lib := mkLib {
  lib_idents : list str;
  lib_defaults : list str;
  lib_props : list str
}.

Definition Libs := Js.obj Lib.

(** [new Set()] of line numbers, in insertion order. *)
Definition has (n : nat) (s : list nat) : bool := existsb (Nat.eqb n) s.

Definition add (n : nat) (s : list nat) : list nat :=
  if has n s then s else s ++ [n].

(** [Array.from(new Set(l))] *)
Definition uniq (l : list str) : list str :=
  fold_left (fun acc x => if existsb (str_eqb x) acc then acc else acc ++ [x])
    l [].

Definition findMissingIdents (context : Context) : list str :=
  let globalScope := getGlobalScope context in
  let refs :=
    filter
      (fun ref =>
         let isTypeOf :=
           match parent ref with
           | Some p =>
               str_eqb (parent_type p) "UnaryExpression"
               && str_eqb (operator p) "typeof"
           | None => false
           end in
         negb isTypeOf && negb (writeExpr ref))
      (through globalScope) in
  let missingIdents :=
    filter (fun n => negb (existsb (str_eqb n) (set globalScope)))
      (map name refs) in
  uniq missingIdents.

Definition isSome {A} (o : option A) : bool :=
  match o with Some _ => true | None => false end.

Definition pushAll (l : list str) (o : option (list str)) : list str :=
  match o with
  | Some xs => l ++ xs
  | None => l
  end.

(** [for (let j = lo; j < hi; j++)] *)
Definition range (lo hi : nat) : list nat := seq lo (hi - lo).

Section Rewriter.

(** [fileRegex] and [whiteRegex] of the absent [common.js], and Node's
    [path.relative]. *)
Variable fileRegex : str -> bool.
Variable whiteRegex : str -> bool.
Variable relative : str -> str -> str.

(** [whiteRegex.test(context.getLineText(j))] *)
Definition isBlank (textLines : list str) (j : nat) : bool :=
  whiteRegex (toString (getLineText textLines j)).

(** [idents.length === 0 && defaults.length === 0 && props.length === 0] *)
Definition libIsEmpty (l : Lib) : bool :=
  (List.length (lib_idents l) =? 0) && (List.length (lib_defaults l) =? 0)
  && (List.length (lib_props l) =? 0).

Definition removeExtraLines (context : Context) (libsToAdd : Libs)
  (linesToRemove : list nat) : list nat :=
  let sortedLinesToRemove := Js.sort_numbers linesToRemove in
  match sortedLinesToRemove with
  | [] => linesToRemove
  | first :: rest =>
      let '(prevLine, lines1) :=
        fold_left
          (fun '(prevLine, lines) line =>
             let between := range (prevLine + 1) line in
             let allBlank := forallb (isBlank (textLines context)) between in
             (line, if allBlank then fold_left (fun s j => add j s) between lines
                    else lines))
          rest (first, linesToRemove) in
      let hasNoImports := forallb (fun kv => libIsEmpty (snd kv)) libsToAdd in
      if hasNoImports && isBlank (textLines context) (prevLine + 1)
      then add (prevLine + 1) lines1
      else lines1
  end.

Definition emptyLib : Lib := mkLib [] [] [].

(** [const lib = libsToAdd[id]] followed by pushes on the arrays of
    [lib]. *)
Definition updateLib (id : str) (f : Lib -> Lib) (libs : Libs) : Libs :=
  match Js.get id libs with
  | Some lib => Js.set id (f lib) libs
  | None => libs
  end.

Definition resolveIdents (context : Context) (search : str -> option DepInfo)
  : Libs * list nat :=
  let missingIdents := findMissingIdents context in
  let fixableIdents := filter (fun i => isSome (search i)) missingIdents in
  let deps := flat_map (fun i => match search i with
                                 | Some d => [d]
                                 | None => []
                                 end) fixableIdents in
  let depIDs := map depID (reqs context) ++ map id deps in
  let libs0 : Libs := fold_left (fun o id => Js.set id emptyLib o) depIDs [] in
  let libs1 :=
    fold_left
      (fun libs ident =>
         match search ident with
         | Some d =>
             updateLib (id d)
               (fun lib =>
                  match type d with
                  | types.ident =>
                      mkLib (lib_idents lib ++ [ident]) (lib_defaults lib)
                        (lib_props lib)
                  | types.default =>
                      mkLib (lib_idents lib) (lib_defaults lib ++ [ident])
                        (lib_props lib)
                  | types.prop =>
                      mkLib (lib_idents lib) (lib_defaults lib)
                        (lib_props lib ++ [ident])
                  end) libs
         | None => libs
         end)
      fixableIdents libs0 in
  let libsToAdd :=
    fold_left
      (fun libs r =>
         updateLib (depID r)
           (fun lib =>
              mkLib (pushAll (lib_idents lib) (req_idents r))
                (pushAll (lib_defaults lib) (req_defaults r))
                (pushAll (lib_props lib) (req_props r))) libs)
      (reqs context) libs1 in
  let nodesToRemove :=
    flat_map (fun r => match node r with Some n => [n] | None => [] end)
      (reqs context) in
  let linesToRemove :=
    fold_left
      (fun s n =>
         fold_left (fun s l => add l s)
           (range (line (loc_start n)) (S (line (loc_end n)))) s)
      nodesToRemove [] in
  (libsToAdd, removeExtraLines context libsToAdd linesToRemove).

(** [true] when the comparator returns [-1], [false] when it returns [1]. *)
Definition compareByBasename (id1 id2 : str) : bool :=
  let base1 := Path.basename id1 in
  let base2 := Path.basename id2 in
  if negb (str_eqb base1 base2) then str_ltb base1 base2
  else str_ltb id1 id2.

Definition composeDestructure (style : Style) (props : option (list str))
  (multiline : bool) : result str :=
  match props with
  | None => Throw "TypeError: Cannot read property 'join' of undefined"
  | Some props =>
      if multiline then
        let propsText :=
          tab style +++ Js.join ("," +++ Js.NL +++ tab style) props
          +++ trailingComma style in
        Ok ("{" +++ Js.NL +++ propsText +++ Js.NL +++ "}")
      else Ok ("{ " +++ Js.join ", " props +++ " }")
  end.

(** [ident && def || ident && props || def && props] *)
Definition requireConflict (ident def : option str)
  (props : option (list str)) : bool :=
  Js.truthy ident && Js.truthy def || Js.truthy ident && isSome props
  || Js.truthy def && isSome props.

(** The nested call passes [multiline: true], under which the length test
    is skipped. *)
Equations composeRequireStatement (style : Style) (id : str)
  (ident def : option str) (props : option (list str)) (multiline : bool)
  : result str by wf (if multiline then 0 else 1) lt :=
composeRequireStatement style id ident def props multiline :=
  if requireConflict ident def props then
    Throw "only one of ident, default, and props must be specified"
  else
    let requireText :=
      "require(" +++ quote style +++ id +++ quote style +++ ")" in
    if Js.truthy ident then
      Ok (kind style +++ " " +++ toString ident +++ " = " +++ requireText
          +++ semi style)
    else if Js.truthy def then
      Ok (kind style +++ " " +++ toString def +++ " = " +++ requireText
          +++ ".default" +++ semi style)
    else
      do destructure <- composeDestructure style props multiline;
      let statement :=
        kind style +++ " " +++ destructure +++ " = " +++ requireText
        +++ semi style in
      match bool_dec multiline false with
      | left _ =>
          if 80 <? List.length statement
          then composeRequireStatement style id None None props true
          else Ok statement
      | right _ => Ok statement
      end.

(** [props && props.length > 0] *)
Definition hasProps (props : option (list str)) : bool :=
  match props with
  | Some (_ :: _) => true
  | _ => false
  end.

Equations composeImportStatement (style : Style) (id : str)
  (ident def : option str) (props : option (list str)) (multiline : bool)
  : result str by wf (if multiline then 0 else 1) lt :=
composeImportStatement style id ident def props multiline :=
  if Js.truthy ident && hasProps props then
    Throw "ident and props cannot both be specified"
  else
    let parts0 := if Js.truthy def then [toString def] else [] in
    let parts1 :=
      if Js.truthy ident then parts0 ++ ["* as " +++ toString ident]
      else parts0 in
    do parts <-
      (if hasProps props then
         do destructure <- composeDestructure style props multiline;
         Ok (parts1 ++ [destructure])
       else Ok parts1);
    let names := Js.join ", " parts in
    let statement :=
      "import " +++ names +++ " from " +++ quote style +++ id +++ quote style
      +++ semi style in
    match bool_dec multiline false with
    | left _ =>
        if isSome props && (80 <? List.length statement)
        then composeImportStatement style id ident def props true
        else Ok statement
    | right _ => Ok statement
    end.

Definition composeStatements (style : Style) (lib : Lib) (id : str)
  : result (list str) :=
  if libIsEmpty lib then Ok []
  else
    let idents := Js.sort_strings (lib_idents lib) in
    let defaults := Js.sort_strings (lib_defaults lib) in
    let props := Js.sort_strings (lib_props lib) in
    if str_eqb (requireKeyword style) "require" then
      do s1 <- mapM (fun ident =>
                       composeRequireStatement style id (Some ident) None None
                         false) idents;
      do s2 <- mapM (fun def =>
                       composeRequireStatement style id None (Some def) None
                         false) defaults;
      do s3 <- (if 0 <? List.length props then
                  do s <- composeRequireStatement style id None None
                            (Some props) false;
                  Ok [s]
                else Ok []);
      Ok (s1 ++ s2 ++ s3)
    else
      do first <- (if 0 <? List.length props then
                     do s <- composeImportStatement style id None
                               (nth_error defaults 0) (Some props) false;
                     Ok [s]
                   else Ok []);
      let leftDefaults :=
        if 0 <? List.length props then skipn 1 defaults else defaults in
      do s1 <- mapM (fun '(def, i) =>
                       composeImportStatement style id (nth_error idents i)
                         (Some def) None false)
                 (Js.mapi (fun def i => (def, i)) leftDefaults);
      do s2 <- mapM (fun ident =>
                       composeImportStatement style id (Some ident) None None
                         false)
                 (skipn (List.length leftDefaults) idents);
      Ok (first ++ s1 ++ s2).

(** [s.replace(/\\/g, "/")] *)
Definition replaceBackslashes (s : str) : str :=
  map (fun c => if Ascii.eqb c "\"%char then Path.slash else c) s.

(** The [newID] of an absolute [id]. *)
Definition relativeID (dir id : str) : str :=
  let newID := replaceBackslashes (relative dir id) in
  match newID with
  | c :: _ => if Path.is_dot c then newID else "./" +++ newID
  | [] => "./" +++ newID
  end.

(** Every absolute key is moved to its relative id. [id] ranges over the
    keys the object had at the start; each is still present when visited,
    since only visited keys have been deleted. *)
Definition relativizeIDs (dir : str) (libs : Libs) : Libs :=
  fold_left
    (fun libs id =>
       if Path.isAbsolute id then
         match Js.get id libs with
         | Some lib => Js.delete id (Js.set (relativeID dir id) lib libs)
         | None => libs
         end
       else libs)
    (Js.keys libs) libs.

(** [ids.forEach(id => statements.push(...composeStatements(style,
    libs[id], id)))] *)
Definition statementsOf (style : Style) (libs : Libs) (ids : list str)
  : result (list str) :=
  do ss <- mapM (fun id => match Js.get id libs with
                           | Some lib => composeStatements style lib id
                           | None => Throw "TypeError"
                           end) ids;
  Ok (List.concat ss).

Definition composeRequires (style : Style) (dir : str) (libs : Libs)
  : result str :=
  let libs := relativizeIDs dir libs in
  let ids := Js.keys libs in
  let externalIDs :=
    Js.sort compareByBasename (filter (fun i => negb (fileRegex i)) ids) in
  let localIDs := Js.sort compareByBasename (filter fileRegex ids) in
  do externalStatements <- statementsOf style libs externalIDs;
  do localStatements <- statementsOf style libs localIDs;
  let statements :=
    if (0 <? List.length externalStatements)
       && (0 <? List.length localStatements)
    then externalStatements ++ [[]] ++ localStatements
    else externalStatements ++ localStatements in
  Ok (Js.join Js.NL statements).

(** [arr[i] = v] for an index inside the array. *)
Fixpoint setAt (i : nat) (v : str) (l : list str) : list str :=
  match l, i with
  | [], _ => []
  | _ :: l', 0 => v :: l'
  | x :: l', S i' => x :: setAt i' v l'
  end.

(** [s.slice(-n)] and [s.slice(0, -1)] *)
Definition sliceLast (n : nat) (s : str) : str :=
  skipn (List.length s - n) s.

Definition dropLast (s : str) : str :=
  firstn (List.length s - 1) s.

(** The last statements of [rewriteCode]: the trailing newline. *)
Definition finishNewline (newCode : str) : str :=
  if negb (str_eqb (sliceLast 1 newCode) Js.NL) then newCode +++ Js.NL
  else if str_eqb (sliceLast 2 newCode) (Js.NL +++ Js.NL) then dropLast newCode
  else newCode.

(** The loop of [rewriteCode] over the lines [0 .. textLines.length]. *)
Definition emitLines (textLines : list str) (linesToRemove : list nat)
  (targetLine : option nat) (requiresText : str) : str :=
  fold_left
    (fun newCode line =>
       let newCode1 :=
         if negb (has line linesToRemove)
         then newCode +++ toString (getLineText textLines line) +++ Js.NL
         else newCode in
       if match targetLine with Some t => line =? t | None => false end
          && (0 <? List.length requiresText)
       then newCode1 +++ requiresText +++ Js.NL
       else newCode1)
    (seq 0 (S (List.length textLines))) [].

(** Where the block goes: the text lines, [requiresText] and [targetLine]
    as they stand when the line loop starts. *)
Definition placeRequires (context : Context) (requiresText : str)
  : result (list str * str * option nat) :=
  match reqs context with
  | r :: _ =>
      match node r with
      | Some n => Ok (textLines context, requiresText, Some (line (loc_start n)))
      | None => Throw "TypeError: Cannot read property 'loc' of undefined"
      end
  | [] =>
      if 0 <? List.length requiresText then
        match getUseStrict context with
        | Some directive =>
            if endsLine context directive then
              Ok (textLines context, Js.NL +++ requiresText +++ Js.NL,
                  Some (line (loc_end directive)))
            else
              let e := loc_end directive in
              match getLineText (textLines context) (line e) with
              | Some endLineText =>
                  Ok (setAt (line e - 1)
                        (firstn (column e) endLineText
                         +++ Js.NL +++ Js.NL +++ requiresText
                         +++ Js.NL +++ Js.NL
                         +++ skipn (column e + 1) endLineText)
                        (textLines context),
                      requiresText, None)
              | None =>
                  Throw "TypeError: Cannot read property 'slice' of undefined"
              end
        | None => Ok (textLines context, requiresText +++ Js.NL, Some 0)
        end
      else Ok (textLines context, requiresText, None)
  end.

(** [search] is [depRegistry.search] where it returns a dep, and [None]
    where it returns [undefined]; a member that the deps inherit from
    [Object.prototype] is no dep and is not among its values here. *)
Definition rewriteCode (context : Context) (search : str -> option DepInfo)
  (dir : str) : result str :=
  let '(libsToAdd, linesToRemove) := resolveIdents context search in
  do requiresText <- composeRequires (style context) dir libsToAdd;
  do placed <- placeRequires context requiresText;
  let '(textLines, requiresText, targetLine) := placed in
  let linesToRemove := add 0 linesToRemove in
  let newCode := emitLines textLines linesToRemove targetLine requiresText in
  Ok (finishNewline newCode).

End Rewriter.

End LibImporter.

(** Modelled from the spec: the source view of the absent [walker.js] is
    line-indexed and keeps the original line numbers; its [textLines] are the
    pieces of the code between line feeds. *)
Definition textLinesOf (code : str) : list str := Js.split_char Js.nl code.

(** ** [src/importer.js] *)

Module Importer.

Import DepRegistry.
Import LibImporter.

(** The values [run] may be called with. *)
Inductive value :=
| VUndefined
| VNull
| VBool (b : bool)
| VNumber (n : Z)
| VNaN
| VStr (s : str).

Definition truthy (v : value) : bool :=
  match v with
  | VUndefined | VNull | VNaN => false
  | VBool b => b
  | VNumber n => negb (Z.eqb n 0)
  | VStr s => Js.nonEmpty s
  end.

Section Run.

(** The promise chain behind the guard: [DepRegistry.populate(dir).then(...)]
    for the resolved directory and the code; [path.resolve] rejects a
    directory that is not a string. *)
Variable Promise : Type.
Variable resolve : str -> str.
Variable pipeline : str -> value -> Promise.

Definition run (code dir : value) : result Promise :=
  if negb (truthy code) || negb (truthy dir) then
    Throw "must provide code and dir"
  else
    match dir with
    | VStr d => Ok (pipeline (resolve d) code)
    | _ => Throw "TypeError: Path must be a string"
    end.

End Run.

Section Rewrite.

(** [composeRequires] of this file formats with the style that the
    [find-style] rule retrieved. *)
Variable composeRequires : Libs -> str -> result str.

Definition resolveIdents (missingIdents : list str)
  (search : str -> option DepInfo) (reqs : list Req)
  : result (Libs * list nat) :=
  let deps := map search missingIdents in
  let depIDs :=
    map depID reqs
    ++ flat_map (fun d => match d with Some d => [id d] | None => [] end) deps in
  let libs0 : Libs := fold_left (fun o id => Js.set id emptyLib o) depIDs [] in
  do libs1 <-
    fold_left
      (fun acc ident =>
         do libs <- acc;
         match search ident with
         | Some d =>
             Ok (updateLib (id d)
                   (fun lib =>
                      match type d with
                      | types.ident =>
                          mkLib (lib_idents lib ++ [ident]) (lib_defaults lib)
                            (lib_props lib)
                      | types.default =>
                          mkLib (lib_idents lib) (lib_defaults lib ++ [ident])
                            (lib_props lib)
                      | types.prop =>
                          mkLib (lib_idents lib) (lib_defaults lib)
                            (lib_props lib ++ [ident])
                      end) libs)
         | None => Throw "TypeError: Cannot destructure undefined"
         end)
      missingIdents (Ok libs0);
  let libsToAdd :=
    fold_left
      (fun libs r =>
         updateLib (depID r)
           (fun lib =>
              mkLib (pushAll (lib_idents lib) (req_idents r))
                (pushAll (lib_defaults lib) (req_defaults r))
                (pushAll (lib_props lib) (req_props r))) libs)
      reqs libs1 in
  let nodesToRemove :=
    flat_map (fun r => match node r with Some n => [n] | None => [] end) reqs in
  let linesToRemove :=
    fold_left
      (fun s n =>
         fold_left (fun s l => add l s)
           (range (line (loc_start n)) (S (line (loc_end n)))) s)
      nodesToRemove [] in
  Ok (libsToAdd, linesToRemove).

(** The loop of [rewriteCode] over the lines of [sourceByLine]; [hasReqs]
    is [reqs.length > 0]. *)
Definition emitLines (sourceByLine : list str) (linesToRemove : list nat)
  (addRequiresLine : nat) (requiresText : str) (hasReqs : bool) : str :=
  fold_left
    (fun newCode line =>
       let newCode1 :=
         if negb (has line linesToRemove)
         then newCode +++ nth line sourceByLine [] +++ Js.NL
         else newCode in
       if (line =? addRequiresLine) && (0 <? List.length requiresText)
       then newCode1 +++ requiresText
            +++ (if hasReqs then Js.NL else Js.NL +++ Js.NL)
       else newCode1)
    (seq 0 (List.length sourceByLine)) [].

(** [lines] is [sourceCode.lines]. *)
Definition rewriteCode (lines : list str) (reqs : list Req)
  (missingIdents : list str) (search : str -> option DepInfo) (dir : str)
  : result str :=
  let sourceByLine := [] :: lines in
  do resolved <- resolveIdents missingIdents search reqs;
  let '(libsToAdd, linesToRemove) := resolved in
  let linesToRemove := add 0 linesToRemove in
  do requiresText <- composeRequires libsToAdd dir;
  do addRequiresLine <-
    match reqs with
    | r :: _ =>
        match node r with
        | Some n => Ok (line (loc_start n))
        | None => Throw "TypeError: Cannot read property 'loc' of undefined"
        end
    | [] => Ok 0
    end;
  let newCode :=
    emitLines sourceByLine linesToRemove addRequiresLine requiresText
      (0 <? List.length reqs) in
  Ok (finishNewline newCode).

End Rewrite.

End Importer.

(** * Vocabulary of the properties *)

(** [a] may stand before [b] in an array sorted with the comparator [lt]:
    the comparator does not put [b] before [a]. *)
Definition notAfter {A} (lt : A -> A -> bool) (a b : A) : Prop :=
  lt b a = false.

(** [a <= b] on strings. *)
Definition str_le (a b : str) : Prop := notAfter str_ltb a b.

(** The invariant of a registry entry at query time. *)
Definition entry_inv (e : DepRegistry.Entry) : Prop :=
  (forall x, In x (DepRegistry.idents e) -> ~ In x (DepRegistry.defaults e))
  /\ (DepRegistry.defaults e <> [] -> DepRegistry.idents e = []).

Definition registry_inv (r : DepRegistry.Registry) : Prop :=
  Forall (fun kv => entry_inv (snd kv)) r.





(** ** Concrete inputs *)

Definition fresh : DepRegistry.Entry :=
  DepRegistry.mkEntry (DepRegistry.VNumber 1) [] [] [].

(** A project whose file [fs.js] exports [fs], next to the built-in [fs]. *)
Definition world_fs : DepRegistry.World :=
  DepRegistry.mkWorld [(lit "fs", None)] "v8.0.0"
    (Some
       (DepRegistry.mkProject []
          [DepRegistry.mkFile "/proj/fs.js" 1
             (Some (DepRegistry.mkExports (strs ["fs"]) [] [] true))])).

(** ** Renderings of a statement

    The forms of the specification: [KIND { p1, p2 } = require(QID)SEMI] on
    one line, or with the destructure opened, one indented property per
    line. *)

Definition destructureOneLine (props : list str) : str :=
  "{ " +++ Js.join ", " props +++ " }".

Definition destructureMultiLine (style : LibImporter.Style) (props : list str)
  : str :=
  "{" +++ Js.NL
  +++ (LibImporter.tab style
       +++ Js.join ("," +++ Js.NL +++ LibImporter.tab style) props
       +++ LibImporter.trailingComma style)
  +++ Js.NL +++ "}".

Definition destructure (style : LibImporter.Style) (props : list str)
  (multiline : bool) : str :=
  if multiline then destructureMultiLine style props
  else destructureOneLine props.

Definition requireText (style : LibImporter.Style) (id : str) : str :=
  "require(" +++ LibImporter.quote style +++ id +++ LibImporter.quote style
  +++ ")".

Definition requireIdentLine (style : LibImporter.Style) (id name : str) : str :=
  LibImporter.kind style +++ " " +++ name +++ " = " +++ requireText style id
  +++ LibImporter.semi style.

Definition requireDefaultLine (style : LibImporter.Style) (id name : str)
  : str :=
  LibImporter.kind style +++ " " +++ name +++ " = " +++ requireText style id
  +++ ".default" +++ LibImporter.semi style.

Definition requirePropsStatement (style : LibImporter.Style) (id : str)
  (props : list str) (multiline : bool) : str :=
  LibImporter.kind style +++ " " +++ destructure style props multiline
  +++ " = " +++ requireText style id +++ LibImporter.semi style.

Definition importParts (style : LibImporter.Style) (ident def : option str)
  (props : option (list str)) (multiline : bool) : list str :=
  (if Js.truthy def then [LibImporter.toString def] else [])
  ++ (if Js.truthy ident then ["* as " +++ LibImporter.toString ident] else [])
  ++ match props with
     | Some (p :: ps) => [destructure style (p :: ps) multiline]
     | _ => []
     end.

Definition importStatement (style : LibImporter.Style) (id : str)
  (ident def : option str) (props : option (list str)) (multiline : bool)
  : str :=
  "import " +++ Js.join ", " (importParts style ident def props multiline)
  +++ " from " +++ LibImporter.quote style +++ id +++ LibImporter.quote style
  +++ LibImporter.semi style.

(** A text without a line feed. *)
Definition oneLine (s : str) : Prop := ~ In Js.nl s.

Definition oneLineOpt (o : option str) : Prop :=
  match o with
  | Some s => oneLine s
  | None => True
  end.

(** The style strings and the id an import is composed from hold no line
    feed. *)
Definition oneLineStyle (style : LibImporter.Style) (id : str) : Prop :=
  oneLine (LibImporter.kind style) /\ oneLine (LibImporter.quote style)
  /\ oneLine (LibImporter.semi style) /\ oneLine id.

(** The style of the examples: [const], double quotes, semicolons. *)
Definition style_require : LibImporter.Style :=
  LibImporter.mkStyle "require" "const" ["034"%char] ";" "  " ",".

Definition style_import : LibImporter.Style :=
  LibImporter.mkStyle "import" "const" ["034"%char] ";" "  " ",".

(** The order of the ids inside a group: by basename, ties broken by the
    full id. *)
Definition byBasename (a b : str) : Prop :=
  str_ltb (Path.basename a) (Path.basename b) = true
  \/ (Path.basename a = Path.basename b /\ str_le a b).

(** A destructuring [require] and an [import] as emitted: on several lines
    when the one-line rendering is longer than 80 characters. *)
Definition renderRequireProps (style : LibImporter.Style) (id : str)
  (props : list str) : str :=
  if 80 <? List.length (requirePropsStatement style id props false)
  then requirePropsStatement style id props true
  else requirePropsStatement style id props false.

Definition renderImport (style : LibImporter.Style) (id : str)
  (ident def : option str) (props : option (list str)) : str :=
  if LibImporter.hasProps props
     && (80 <? List.length (importStatement style id ident def props false))
  then importStatement style id ident def props true
  else importStatement style id ident def props false.

(** The statements of one id, for name lists that are already sorted. *)
Definition statementsSorted (style : LibImporter.Style) (id : str)
  (idents defaults props : list str) : list str :=
  if str_eqb (LibImporter.requireKeyword style) "require" then
    map (requireIdentLine style id) idents
    ++ map (requireDefaultLine style id) defaults
    ++ (if 0 <? List.length props then [renderRequireProps style id props]
        else [])
  else
    let leftDefaults :=
      if 0 <? List.length props then skipn 1 defaults else defaults in
    (if 0 <? List.length props
     then [renderImport style id None (nth_error defaults 0) (Some props)]
     else [])
    ++ Js.mapi (fun def i =>
                  renderImport style id (nth_error idents i) (Some def) None)
         leftDefaults
    ++ map (fun ident => renderImport style id (Some ident) None None)
         (skipn (List.length leftDefaults) idents).

(** The statements of the id [id] of [libs], in the closed form. *)
Definition statementsFor (style : LibImporter.Style) (libs : LibImporter.Libs)
  (id : str) : list str :=
  match Js.get id libs with
  | Some lib =>
      if LibImporter.libIsEmpty lib then []
      else statementsSorted style id
             (Js.sort_strings (LibImporter.lib_idents lib))
             (Js.sort_strings (LibImporter.lib_defaults lib))
             (Js.sort_strings (LibImporter.lib_props lib))
  | None => []
  end.

(** The names of a lib are not empty strings. *)
Definition namedLib (lib : LibImporter.Lib) : Prop :=
  Forall (fun n => n <> []) (LibImporter.lib_idents lib)
  /\ Forall (fun n => n <> []) (LibImporter.lib_defaults lib)
  /\ Forall (fun n => n <> []) (LibImporter.lib_props lib).

(** The number of line feeds a text ends with. *)
Definition trailingNewlines (s : str) : nat :=
  List.length (Path.takeWhile (Ascii.eqb Js.nl) (rev s)).

(** The lines of a text, each followed by a line feed. *)
Definition linesText (lines : list str) : str :=
  List.concat (map (fun l => l ++ Js.NL) lines).

(** The directive ["use strict";], 13 characters long. *)
Definition useStrictOnly : str :=
  ["034"%char] ++ lit "use strict" ++ ["034"%char] ++ lit ";".

(** The directive followed at once by the call. *)
Definition useStrictTight : str :=
  ["034"%char] ++ lit "use strict" ++ ["034"%char] ++ lit ";foo();".

Definition tightLineContext : LibImporter.Context :=
  LibImporter.mkContext [] style_require [useStrictTight; []]
    (Some (LibImporter.mkLoc (LibImporter.mkPos 1 0) (LibImporter.mkPos 1 13)))
    (fun _ => false)
    (LibImporter.mkScope [LibImporter.mkRef "foo" None false] []).

(** A file without imports, directive or unresolved names. *)
Definition plainContext (textLines : list str) : LibImporter.Context :=
  LibImporter.mkContext [] style_require textLines None (fun _ => false)
    (LibImporter.mkScope [] []).

Definition noSearch (name : str) : option DepRegistry.DepInfo := None.

(** [foo] is exported by the package [bar]. *)
Definition searchFoo (name : str) : option DepRegistry.DepInfo :=
  if str_eqb name "foo"
  then Some (DepRegistry.mkDep "bar" 2 DepRegistry.types.ident)
  else None.

(** The directive ["use strict";] followed on its line by a call of the
    unresolved [foo]; the directive ends at column 13. *)
Definition useStrictLine : str :=
  ["034"%char] ++ lit "use strict" ++ ["034"%char] ++ lit "; foo();".

Definition sharedLineContext : LibImporter.Context :=
  LibImporter.mkContext [] style_require [useStrictLine; []]
    (Some (LibImporter.mkLoc (LibImporter.mkPos 1 0) (LibImporter.mkPos 1 13)))
    (fun _ => false)
    (LibImporter.mkScope [LibImporter.mkRef "foo" None false] []).

Definition requireBar : str :=
  lit "const foo = require(" ++ ["034"%char] ++ lit "bar" ++ ["034"%char]
  ++ lit ");".

(** [const name = require("id");] *)
Definition requireLine (name id : string) : str :=
  lit "const " ++ lit name ++ lit " = require(" ++ ["034"%char] ++ lit id
  ++ ["034"%char] ++ lit ");".

(** A package and two project files, one of them with a name that starts
    with a dot; each is required under one name. *)
Definition libs_hidden : LibImporter.Libs :=
  [(lit "zlib", LibImporter.mkLib (strs ["zlib"]) [] []);
   (lit "/proj/.hidden.js", LibImporter.mkLib (strs ["hidden"]) [] []);
   (lit "/proj/lib/b.js", LibImporter.mkLib (strs ["b"]) [] [])].

(** Three libs: two packages and a project file. *)
Definition libs_example : LibImporter.Libs :=
  [(lit "zlib", LibImporter.mkLib [] [] (strs ["inflate"; "deflate"]));
   (lit "/proj/lib/b.js", LibImporter.mkLib (strs ["b"]) [] []);
   (lit "bar", LibImporter.mkLib (strs ["foo"]) [] [])].


(** ** The candidates of the reverse index

    What [computeDeps] hands to [associate], in the order of the calls: for
    each id of the registry its idents, then its defaults, then its props. *)

Definition entryCandidates (pkgRegex : str -> bool) (builtinLibs : list str)
  (kv : str * DepRegistry.Entry) : list (str * DepRegistry.DepInfo) :=
  let priority := DepRegistry.priorityOf pkgRegex builtinLibs (fst kv) in
  map (fun n => (n, DepRegistry.mkDep (fst kv) priority DepRegistry.types.ident))
    (DepRegistry.idents (snd kv))
  ++ map (fun n =>
            (n, DepRegistry.mkDep (fst kv) priority DepRegistry.types.default))
       (DepRegistry.defaults (snd kv))
  ++ map (fun n =>
            (n, DepRegistry.mkDep (fst kv) priority DepRegistry.types.prop))
       (DepRegistry.props (snd kv)).

Definition candidates (pkgRegex : str -> bool) (builtinLibs : list str)
  (registry : DepRegistry.Registry) : list (str * DepRegistry.DepInfo) :=
  flat_map (entryCandidates pkgRegex builtinLibs) registry.

(** The candidates of one name, in order. *)
Definition candidatesOf (name : str) (cs : list (str * DepRegistry.DepInfo))
  : list DepRegistry.DepInfo :=
  map snd (filter (fun c => str_eqb (fst c) name) cs).

Definition isProp (d : DepRegistry.DepInfo) : bool :=
  DepRegistry.types.eqb (DepRegistry.type d) DepRegistry.types.prop.

(** What one call of [associate] does to the dep stored under a name that
    [Object.prototype] does not hold. *)
Definition associateStep (r : option DepRegistry.DepInfo)
  (d : DepRegistry.DepInfo) : option DepRegistry.DepInfo :=
  match r with
  | None => Some d
  | Some e =>
      if (DepRegistry.priority e <? DepRegistry.priority d)
         || (isProp e && negb (isProp d))
      then Some d
      else Some e
  end.

(** What [search] returns for a name that [Object.prototype] does not
    hold. *)
Definition ownDep (r : option DepRegistry.DepInfo)
  : Js.member DepRegistry.DepInfo :=
  match r with
  | Some d => Js.Own d
  | None => Js.Undefined
  end.

(** [name] is exported by the entry [e] with the kind [t]. *)
Definition exports (e : DepRegistry.Entry) (t : DepRegistry.types.t)
  (name : str) : Prop :=
  match t with
  | DepRegistry.types.ident => In name (DepRegistry.idents e)
  | DepRegistry.types.default => In name (DepRegistry.defaults e)
  | DepRegistry.types.prop => In name (DepRegistry.props e)
  end.

(** ** [populateDir] of [src/dep-registry.js] *)

Module DepRegistryFs.

Import DepRegistry.

(** What [readdir] and [stat] report for one name of a directory: a file
    with its modification time and what [parser.run] makes of its text, a
    directory with its own names, or something else. *)
#[warnings="-register-all"] Inductive DirEntry :=
| IsFile (file : str) (mtime : Z) (parsed : option Exports)
| IsDirectory (file : str) (files : list DirEntry)
| IsOther (file : str).

(** [file[0] === "."] *)
Definition startsWithDot (file : str) : bool :=
  match file with
  | c :: _ => Path.is_dot c
  | [] => false
  end.

(** [path.join(dir, file)] for a normalized directory and a name without
    slashes. *)
Definition join (dir file : str) : str :=
  if Js.endsWith "/" dir then dir ++ file else dir ++ Path.slash :: file.

(** The files that [populateDir] registers below [dir], for one name of the
    directory. *)
Fixpoint acceptedFiles (dir : str) (e : DirEntry) : list File :=
  match e with
  | IsFile file mtime parsed =>
      if startsWithDot file then []
      else
        let ext := Path.extname file in
        if str_eqb ext ".js" || str_eqb ext ".jsx"
        then [mkFile (join dir file) mtime parsed]
        else []
  | IsDirectory file files =>
      if startsWithDot file then []
      else if negb (str_eqb file "node_modules")
              && negb (str_eqb file "bower_components")
      then flat_map (acceptedFiles (join dir file)) files
      else []
  | IsOther _ => []
  end.

Section PopulateDir.
Variable pkgRegex : str -> bool.

(** [populateDir]: every accepted file is registered and, unless its cached
    entry is valid, analysed. The files are taken here in the order of the
    listing, depth first. The code registers each file when its [stat]
    resolves, so the files of a directory usually come before those of its
    sub-directories; the order decides nothing but which of two entries
    [computeDeps] visits first. *)
Definition populateDir (cache : Registry) (dir : str) (files : list DirEntry)
  (registry : Registry) : Registry :=
  fold_left (fillFile pkgRegex cache) (flat_map (acceptedFiles dir) files)
    registry.

End PopulateDir.

End DepRegistryFs.

(** A directory of a project below [dir], then a source file in it. *)
Definition scannedDir (file : str) : Prop :=
  DepRegistryFs.startsWithDot file = false
  /\ file <> lit "node_modules" /\ file <> lit "bower_components".

Definition scannedFile (file : str) : Prop :=
  DepRegistryFs.startsWithDot file = false
  /\ (Path.extname file = lit ".js" \/ Path.extname file = lit ".jsx").

(** Two project files that export [x], the first as a prop. *)
Definition world_two_files : DepRegistry.World :=
  DepRegistry.mkWorld [] "v8.0.0"
    (Some
       (DepRegistry.mkProject []
          [DepRegistry.mkFile "/proj/a.js" 1
             (Some (DepRegistry.mkExports [] [] (strs ["x"]) true));
           DepRegistry.mkFile "/proj/b.js" 1
             (Some (DepRegistry.mkExports (strs ["x"]) [] [] true))])).

(** A project directory with a source file, a hidden file, a style sheet
    and two directories. *)
Definition tree_example : list DepRegistryFs.DirEntry :=
  [DepRegistryFs.IsFile "index.js" 1 None;
   DepRegistryFs.IsFile ".eslintrc.js" 1 None;
   DepRegistryFs.IsFile "main.css" 1 None;
   DepRegistryFs.IsDirectory "node_modules"
     [DepRegistryFs.IsFile "dep.js" 1 None];
   DepRegistryFs.IsDirectory "lib" [DepRegistryFs.IsFile "util.jsx" 2 None]].

(** ** Vocabulary of the rewriter *)

(** The reference is the operand of [typeof]. *)
Definition isTypeOf (ref : LibImporter.Reference) : bool :=
  match LibImporter.parent ref with
  | Some p =>
      str_eqb (LibImporter.parent_type p) "UnaryExpression"
      && str_eqb (LibImporter.operator p) "typeof"
  | None => false
  end.



(** The lines numbered from [k] on that are not removed. *)
Fixpoint keptFrom (linesToRemove : list nat) (k : nat) (lines : list str)
  : list str :=
  match lines with
  | [] => []
  | x :: lines' =>
      (if LibImporter.has k linesToRemove then [] else [x])
      ++ keptFrom linesToRemove (S k) lines'
  end.

(** A file with two imports, blank lines between and after them, and a use
    of the imported names. *)
Definition importsContext : LibImporter.Context :=
  LibImporter.mkContext
    [LibImporter.mkReq
       (Some (LibImporter.mkLoc (LibImporter.mkPos 2 0) (LibImporter.mkPos 2 29)))
       "/proj/lib/b.js" (Some (strs ["b"])) None None;
     LibImporter.mkReq
       (Some (LibImporter.mkLoc (LibImporter.mkPos 4 0) (LibImporter.mkPos 4 32)))
       "zlib" None None (Some (strs ["inflate"; "deflate"]))]
    style_require
    (strs ["// tool"; "const b = require('./lib/b');"; "";
           "const { inflate, deflate } = require('zlib');"; "";
           "foo(b, inflate, deflate);"; ""])
    None (fun _ => false)
    (LibImporter.mkScope
       [LibImporter.mkRef "foo" None false;
        LibImporter.mkRef "foo" None false;
        LibImporter.mkRef "b" None false;
        LibImporter.mkRef "window"
          (Some (LibImporter.mkParent "UnaryExpression" "typeof")) false]
       (strs ["b"; "inflate"; "deflate"])).




(** The block as the line loop adds it: nothing when it is empty. *)
Definition blockText (requiresText : str) : str :=
  if 0 <? List.length requiresText then requiresText ++ Js.NL else [].

(** What the line loop adds for the lines numbered from [k] on. *)
Fixpoint emittedFrom (linesToRemove : list nat) (targetLine : option nat)
  (requiresText : str) (k : nat) (lines : list str) : str :=
  match lines with
  | [] => []
  | x :: lines' =>
      (if LibImporter.has k linesToRemove then [] else x ++ Js.NL)
      ++ (if match targetLine with Some t => k =? t | None => false end
          then blockText requiresText else [])
      ++ emittedFrom linesToRemove targetLine requiresText (S k) lines'
  end.


Definition strictContext : LibImporter.Context :=
  LibImporter.mkContext [] style_require
    [useStrictOnly; lit "foo();"; []]
    (Some (LibImporter.mkLoc (LibImporter.mkPos 1 0) (LibImporter.mkPos 1 13)))
    (fun _ => true)
    (LibImporter.mkScope [LibImporter.mkRef "foo" None false] []).


(** * Properties *)

(** ** Strings and their order *)

Lemma str_eqb_eq (a b : str) : str_eqb a b = true <-> a = b.
Proof.
  revert b; induction a as [|x a IH]; intros [|y b]; simpl; split;
    try congruence; try reflexivity.
  - intros H. apply andb_true_iff in H as [Hx Ha].
    apply Ascii.eqb_eq in Hx. apply IH in Ha. now subst.
  - intros H. injection H as -> ->.
    rewrite Ascii.eqb_refl. simpl. now apply IH.
Qed.

Lemma str_eqb_refl (a : str) : str_eqb a a = true.
Proof. now apply str_eqb_eq. Qed.

Lemma str_eqb_neq (a b : str) : str_eqb a b = false <-> a <> b.
Proof.
  split.
  - intros H E. apply str_eqb_eq in E. congruence.
  - intros H. destruct (str_eqb a b) eqn:E; [|reflexivity].
    apply str_eqb_eq in E. contradiction.
Qed.

Lemma str_eqb_sym (a b : str) : str_eqb a b = str_eqb b a.
Proof.
  destruct (str_eqb a b) eqn:E.
  - apply str_eqb_eq in E. subst. symmetry. apply str_eqb_refl.
  - symmetry. apply str_eqb_neq. apply str_eqb_neq in E. congruence.
Qed.

Lemma ascii_compare_eq (x y : ascii) : Ascii.compare x y = Eq <-> x = y.
Proof.
  split.
  - apply Ascii.compare_eq_iff.
  - intros ->. unfold Ascii.compare. apply N.compare_refl.
Qed.

Lemma ascii_compare_lt_trans (x y z : ascii) :
  Ascii.compare x y = Lt -> Ascii.compare y z = Lt -> Ascii.compare x z = Lt.
Proof.
  unfold Ascii.compare. rewrite !N.compare_lt_iff. lia.
Qed.

Lemma str_compare_eq (a b : str) : str_compare a b = Eq <-> a = b.
Proof.
  revert b; induction a as [|x a IH]; intros [|y b]; simpl;
    try (split; congruence).
  destruct (Ascii.compare x y) eqn:E.
  - apply ascii_compare_eq in E. subst. rewrite IH.
    split; congruence.
  - split; [discriminate|]. intros H. injection H as Hx _. subst y.
    rewrite (proj2 (ascii_compare_eq x x) eq_refl) in E. discriminate.
  - split; [discriminate|]. intros H. injection H as Hx _. subst y.
    rewrite (proj2 (ascii_compare_eq x x) eq_refl) in E. discriminate.
Qed.

Lemma str_compare_antisym (a b : str) :
  str_compare b a = CompOpp (str_compare a b).
Proof.
  revert b; induction a as [|x a IH]; intros [|y b]; simpl; try reflexivity.
  rewrite (Ascii.compare_antisym y x).
  destruct (Ascii.compare x y); simpl; auto.
Qed.

Lemma str_compare_lt_trans (a b c : str) :
  str_compare a b = Lt -> str_compare b c = Lt -> str_compare a c = Lt.
Proof.
  revert b c; induction a as [|x a IH]; intros [|y b] [|z c]; simpl;
    try congruence.
  destruct (Ascii.compare x y) eqn:Exy; try discriminate;
    destruct (Ascii.compare y z) eqn:Eyz; try discriminate; intros H1 H2.
  - apply ascii_compare_eq in Exy, Eyz. subst.
    rewrite (proj2 (ascii_compare_eq z z) eq_refl). eauto.
  - apply ascii_compare_eq in Exy. subst. now rewrite Eyz.
  - apply ascii_compare_eq in Eyz. subst. now rewrite Exy.
  - now rewrite (ascii_compare_lt_trans _ _ _ Exy Eyz).
Qed.

Lemma str_ltb_irrefl (a : str) : str_ltb a a = false.
Proof.
  unfold str_ltb. now rewrite (proj2 (str_compare_eq a a) eq_refl).
Qed.

Lemma str_ltb_asym (a b : str) : str_ltb a b = true -> str_ltb b a = false.
Proof.
  unfold str_ltb. rewrite (str_compare_antisym a b).
  destruct (str_compare a b); simpl; congruence.
Qed.

Lemma str_ltb_trans (a b c : str) :
  str_ltb a b = true -> str_ltb b c = true -> str_ltb a c = true.
Proof.
  unfold str_ltb.
  destruct (str_compare a b) eqn:E1; try discriminate.
  destruct (str_compare b c) eqn:E2; try discriminate.
  now rewrite (str_compare_lt_trans _ _ _ E1 E2).
Qed.

Lemma str_ltb_total (a b : str) :
  str_ltb a b = true \/ a = b \/ str_ltb b a = true.
Proof.
  unfold str_ltb. rewrite (str_compare_antisym a b).
  destruct (str_compare a b) eqn:E; simpl; auto.
  apply str_compare_eq in E. auto.
Qed.

Lemma str_le_trans (a b c : str) : str_le a b -> str_le b c -> str_le a c.
Proof.
  unfold str_le, notAfter. intros Hab Hbc.
  destruct (str_ltb c a) eqn:Hca; [|reflexivity].
  destruct (str_ltb_total a b) as [H|[H|H]]; try congruence.
  rewrite (str_ltb_trans _ _ _ Hca H) in Hbc. discriminate.
Qed.

(** ** Sorting *)

Section SortFacts.
Context {A : Type} (lt : A -> A -> bool).
Hypothesis lt_asym : forall a b, lt a b = true -> lt b a = false.

Lemma insert_perm (x : A) (l : list A) : Permutation (x :: l) (Js.insert lt x l).
Proof.
  induction l as [|y l IH]; simpl; [reflexivity|].
  destruct (lt y x); [|reflexivity].
  rewrite perm_swap. now constructor.
Qed.

Lemma sort_perm (l : list A) : Permutation l (Js.sort lt l).
Proof.
  induction l as [|x l IH]; simpl; [constructor|].
  rewrite <- insert_perm. now constructor.
Qed.

Lemma insert_sorted (x : A) (l : list A) :
  Sorted (notAfter lt) l -> Sorted (notAfter lt) (Js.insert lt x l).
Proof.
  induction 1 as [|y l Hs IH Hhd]; simpl.
  - repeat constructor.
  - destruct (lt y x) eqn:E.
    + constructor; [assumption|].
      destruct l as [|z l]; simpl.
      * constructor. now apply lt_asym.
      * destruct (lt z x) eqn:E'.
        -- constructor. now inversion Hhd.
        -- constructor. now apply lt_asym.
    + constructor; [now constructor|]. constructor. exact E.
Qed.

Lemma sort_sorted (l : list A) : Sorted (notAfter lt) (Js.sort lt l).
Proof.
  induction l as [|x l IH]; simpl; [constructor|].
  now apply insert_sorted.
Qed.

End SortFacts.

Lemma sort_strings_sorted (l : list str) : Sorted str_le (Js.sort_strings l).
Proof. apply sort_sorted. apply str_ltb_asym. Qed.

Lemma sort_strings_perm (l : list str) : Permutation l (Js.sort_strings l).
Proof. apply sort_perm. Qed.

(** ** Objects as maps *)

Section ObjFacts.
Context {V : Type}.

Lemma get_set_same (k : str) (v : V) (o : Js.obj V) :
  Js.get k (Js.set k v o) = Some v.
Proof.
  induction o as [|[k' v'] o IH]; simpl.
  - now rewrite str_eqb_refl.
  - destruct (str_eqb k k') eqn:E; simpl.
    + now rewrite str_eqb_refl.
    + now rewrite E.
Qed.

Lemma get_set_other (k k' : str) (v : V) (o : Js.obj V) :
  k' <> k -> Js.get k' (Js.set k v o) = Js.get k' o.
Proof.
  intros Hne. induction o as [|[k0 v0] o IH]; simpl.
  - apply str_eqb_neq in Hne. now rewrite Hne.
  - destruct (str_eqb k k0) eqn:E; simpl.
    + apply str_eqb_eq in E. subst k0.
      apply str_eqb_neq in Hne. now rewrite Hne.
    + now rewrite IH.
Qed.

Lemma get_In (k : str) (v : V) (o : Js.obj V) :
  Js.get k o = Some v -> In (k, v) o.
Proof.
  induction o as [|[k' v'] o IH]; simpl; [discriminate|].
  destruct (str_eqb k k') eqn:E.
  - apply str_eqb_eq in E. intros H. injection H as ->. subst. now left.
  - auto.
Qed.

Lemma set_Forall (P : str * V -> Prop) (k : str) (v : V) (o : Js.obj V) :
  P (k, v) -> Forall P o -> Forall P (Js.set k v o).
Proof.
  intros Hv. induction 1 as [|[k' v'] o Hk Ho IH]; simpl.
  - now repeat constructor.
  - destruct (str_eqb k k'); now constructor.
Qed.

End ObjFacts.

(** ** The registry *)

Section RegistryFacts.
Import DepRegistry.
Variable pkgRegex : str -> bool.

Lemma entry_inv_cases (e : Entry) :
  idents e = [] \/ defaults e = [] -> entry_inv e.
Proof.
  intros [H|H]; split; rewrite H; simpl; try tauto; try congruence.
Qed.

Lemma populateIdents_defaults (e : Entry) (i : str) :
  defaults (populateIdents pkgRegex e i) = defaults e.
Proof. reflexivity. Qed.

(** An entry filled by the external probe. *)
Lemma probe_entry_inv (v : Version) (i : str) (probe : option Probe) :
  entry_inv
    (populatePropsDefaults (populateIdents pkgRegex (mkEntry v [] [] []) i)
       probe).
Proof.
  apply entry_inv_cases.
  destruct probe as [p|]; simpl; [|now right].
  destruct (hasDefault p); simpl; [now left|now right].
Qed.

(** An entry filled by the analysis of a project file. *)
Lemma file_entry_inv (v : Version) (path : str) (exports : option Exports) :
  entry_inv (populateFile pkgRegex (mkEntry v [] [] []) path exports).
Proof.
  apply entry_inv_cases.
  destruct exports as [e|]; simpl; [|now left].
  destruct (hasExports e); simpl; [|now left].
  destruct (exp_defaults e) as [|d ds] eqn:E; simpl; [now right|now left].
Qed.

Lemma register_inv (cache registry registry' : Registry) (i : str)
  (v : Version) (o : option Entry) :
  registry_inv cache -> registry_inv registry ->
  register cache i v registry = (registry', o) ->
  registry_inv registry' /\ (forall e, o = Some e -> e = mkEntry v [] [] []).
Proof.
  intros Hc Hr. unfold register.
  assert (Hfresh : entry_inv (mkEntry v [] [] []))
    by (apply entry_inv_cases; now left).
  destruct (Js.get i cache) as [c|] eqn:G.
  - destruct (version_eqb (version c) v).
    + intros H. injection H as <- <-. split; [|discriminate].
      apply set_Forall; [|exact Hr].
      apply get_In in G. unfold registry_inv in Hc.
      rewrite Forall_forall in Hc. exact (Hc _ G).
    + intros H. injection H as <- <-. split.
      * now apply set_Forall.
      * intros e He. now injection He as <-.
  - intros H. injection H as <- <-. split.
    + now apply set_Forall.
    + intros e He. now injection He as <-.
Qed.

Lemma fillBuiltin_inv (cache registry : Registry) (pv : str)
  (b : str * option Probe) :
  registry_inv cache -> registry_inv registry ->
  registry_inv (fillBuiltin pkgRegex cache pv registry b).
Proof.
  intros Hc Hr. destruct b as [i probe]. unfold fillBuiltin.
  destruct (register cache i (VString pv) registry) as [r' o] eqn:R.
  destruct (register_inv _ _ _ _ _ _ Hc Hr R) as [Hr' Ho].
  destruct o as [e|]; [|exact Hr'].
  rewrite (Ho e eq_refl). apply set_Forall; [|exact Hr'].
  apply probe_entry_inv.
Qed.

Lemma fillPackage_inv (cache registry : Registry) (p : Package) :
  registry_inv cache -> registry_inv registry ->
  registry_inv (fillPackage pkgRegex cache registry p).
Proof.
  intros Hc Hr. unfold fillPackage.
  destruct (register cache (pkg_id p) (VString (pkg_version p)) registry)
    as [r' o] eqn:R.
  destruct (register_inv _ _ _ _ _ _ Hc Hr R) as [Hr' Ho].
  destruct o as [e|]; [|exact Hr'].
  rewrite (Ho e eq_refl). apply set_Forall; [|exact Hr'].
  apply probe_entry_inv.
Qed.

Lemma fillFile_inv (cache registry : Registry) (f : File) :
  registry_inv cache -> registry_inv registry ->
  registry_inv (fillFile pkgRegex cache registry f).
Proof.
  intros Hc Hr. unfold fillFile.
  destruct (register cache (file_path f) (VNumber (mtime f)) registry)
    as [r' o] eqn:R.
  destruct (register_inv _ _ _ _ _ _ Hc Hr R) as [Hr' Ho].
  destruct o as [e|]; [|exact Hr'].
  rewrite (Ho e eq_refl). apply set_Forall; [|exact Hr'].
  apply file_entry_inv.
Qed.

Lemma fold_left_inv {A} (f : Registry -> A -> Registry) (l : list A) :
  (forall r a, registry_inv r -> registry_inv (f r a)) ->
  forall r, registry_inv r -> registry_inv (fold_left f l r).
Proof.
  intros Hf. induction l as [|a l IH]; simpl; auto.
Qed.

(** One run of [populate] on a cache whose entries satisfy the invariant. *)
Lemma populateRegistry_inv (cache : Registry) (w : World) :
  registry_inv cache -> registry_inv (populateRegistry pkgRegex cache w).
Proof.
  intros Hc. unfold populateRegistry.
  assert (H1 : registry_inv
                 (fold_left (fillBuiltin pkgRegex cache (processVersion w))
                    (builtinLibs w) [])).
  { apply fold_left_inv; [|constructor].
    intros r a. now apply fillBuiltin_inv. }
  destruct (project w) as [p|]; [|exact H1].
  apply fold_left_inv; [intros r a; now apply fillFile_inv|].
  apply fold_left_inv; [intros r a; now apply fillPackage_inv|].
  exact H1.
Qed.

Lemma promote_incl (names ds : list str) :
  incl ds (promote ds names) /\ incl names (promote ds names).
Proof.
  revert ds. induction names as [|i names IH]; intros ds; simpl.
  - split; [apply incl_refl|intros x []].
  - destruct (existsb (str_eqb i) ds) eqn:E.
    + destruct (IH ds) as [H1 H2]. split; [exact H1|].
      intros x [<-|Hx]; [|now apply H2].
      apply existsb_exists in E as (y & Hy & Ey).
      apply str_eqb_eq in Ey. subst y. now apply H1.
    + destruct (IH (push ds i)) as [H1 H2]. unfold push in *. split.
      * intros x Hx. apply H1, in_app_iff. now left.
      * intros x [<-|Hx]; [|now apply H2].
        apply H1, in_app_iff. right. now left.
Qed.

Lemma populateIdents_idents_app (e : Entry) (v : Version) (i : str) :
  idents (populateIdents pkgRegex e i)
  = idents e ++ idents (populateIdents pkgRegex (mkEntry v [] [] []) i).
Proof.
  unfold populateIdents, push. simpl.
  destruct (identRegex (baseOf pkgRegex i)),
    (0 <? List.length (camelCaseOf (baseOf pkgRegex i))),
    (negb (str_eqb (camelCaseOf (baseOf pkgRegex i)) (baseOf pkgRegex i)));
    simpl; rewrite <- ?app_assoc, ?app_nil_r; reflexivity.
Qed.

(** C4. At query time every entry of the registry has disjoint [idents] and
    [defaults], and no [idents] at all once it has a default: for entries
    filled by the external probe, by the analysis of a project file, and for
    those reused from the cache written by an earlier run. When the probe
    reports a default, or the analysis finds one, every ident collected for
    the entry has been moved into its [defaults]. *)
Theorem registry_entries_promoted (ws : list DepRegistry.World) :
  registry_inv (DepRegistry.populateRuns pkgRegex ws)
  /\ (forall v i p,
        hasDefault p = true ->
        incl (idents (populateIdents pkgRegex (mkEntry v [] [] []) i))
          (defaults
             (populatePropsDefaults
                (populateIdents pkgRegex (mkEntry v [] [] []) i) (Some p))))
  /\ (forall v path e,
        hasExports e = true -> exp_defaults e <> [] ->
        incl
          (exp_idents e
           ++ idents (populateIdents pkgRegex (mkEntry v [] [] []) path))
          (defaults
             (populateFile pkgRegex (mkEntry v [] [] []) path (Some e)))).
Proof.
  split; [|split].
  - unfold populateRuns.
    assert (H : forall r, registry_inv r ->
                  registry_inv (fold_left (populateRegistry pkgRegex) ws r)).
    { induction ws as [|w ws' IH]; simpl; [auto|].
      intros r Hr. apply IH. now apply populateRegistry_inv. }
    apply H. constructor.
  - intros v i p Hp. unfold populatePropsDefaults. rewrite Hp. simpl.
    apply incl_refl.
  - intros v path e He Hd. unfold populateFile. rewrite He.
    cbn [idents defaults props version app].
    set (e1 := mkEntry v (exp_idents e) (exp_defaults e) (exp_props e)).
    assert (Hlen : (0 <? List.length (defaults (populateIdents pkgRegex e1 path)))
                   = true).
    { rewrite populateIdents_defaults. simpl.
      destruct (exp_defaults e); [congruence|reflexivity]. }
    rewrite Hlen. cbn [defaults].
    rewrite (populateIdents_idents_app e1 v path). simpl (idents e1).
    apply promote_incl.
Qed.

End RegistryFacts.

(** ** [associate] and [computeDeps] *)

Section AssociateFacts.
Import DepRegistry.
Variable pkgRegex : str -> bool.

(** The rule of [associate] as the code has it, for a name that
    [Object.prototype] does not hold: the candidate replaces the existing
    entry when that entry's priority is numerically smaller. *)
Lemma associate_replaces (deps : Deps) (name i : str) (p : nat) (t : types.t) :
  Js.inherited name = false ->
  Js.get name (associate deps name i p t) =
  match Js.get name deps with
  | None => Some (mkDep i p t)
  | Some dep =>
      if (priority dep <? p)
         || (types.eqb (type dep) types.prop && negb (types.eqb t types.prop))
      then Some (mkDep i p t)
      else Some dep
  end.
Proof.
  intros Hn. unfold associate, Js.read. rewrite Hn.
  destruct (Js.get name deps) as [dep|] eqn:G.
  - destruct ((priority dep <? p)
              || (types.eqb (type dep) types.prop
                  && negb (types.eqb t types.prop))).
    + apply get_set_same.
    + exact G.
  - apply get_set_same.
Qed.

Lemma associate_other (deps : Deps) (name name' i : str) (p : nat)
  (t : types.t) :
  name' <> name ->
  Js.get name' (associate deps name i p t) = Js.get name' deps.
Proof.
  intros Hne. unfold associate, Js.read.
  destruct (Js.get name deps) as [dep|].
  - destruct ((priority dep <? p)
              || (types.eqb (type dep) types.prop
                  && negb (types.eqb t types.prop))); [|reflexivity].
    now apply get_set_other.
  - destruct (Js.inherited name); [reflexivity|now apply get_set_other].
Qed.

(** For a name that [Object.prototype] holds nothing is stored. *)
Lemma associate_inherited (deps : Deps) (name i : str) (p : nat)
  (t : types.t) :
  Js.inherited name = true -> Js.get name deps = None ->
  associate deps name i p t = deps.
Proof. intros Hn G. unfold associate, Js.read. now rewrite G, Hn. Qed.

End AssociateFacts.

(** C1. On the code the built-in module wins: with the built-in [fs] and a
    project file [/proj/fs.js] exporting [fs], the name [fs] resolves to the
    built-in at priority 3; the file is given priority 2 and a declared
    package priority 1; and a candidate of priority 3 replaces an entry of
    priority 1, while one of priority 1 does not replace an entry of
    priority 3. *)
Theorem computeDeps_builtin_shadows_project_file :
  DepRegistry.search
    (snd (DepRegistry.populate Common.pkgRegex [] world_fs)) "fs"
  = Js.Own (DepRegistry.mkDep "fs" 3 DepRegistry.types.ident)
  /\ DepRegistry.priorityOf Common.pkgRegex (strs ["fs"]) "/proj/fs.js" = 2
  /\ DepRegistry.priorityOf Common.pkgRegex (strs ["fs"]) "lodash" = 1
  /\ DepRegistry.search
       (DepRegistry.associate
          (DepRegistry.associate [] "x" "a" 1 DepRegistry.types.ident)
          "x" "b" 3 DepRegistry.types.ident) "x"
     = Js.Own (DepRegistry.mkDep "b" 3 DepRegistry.types.ident)
  /\ DepRegistry.search
       (DepRegistry.associate
          (DepRegistry.associate [] "x" "a" 3 DepRegistry.types.ident)
          "x" "b" 1 DepRegistry.types.ident) "x"
     = Js.Own (DepRegistry.mkDep "a" 3 DepRegistry.types.ident).
Proof. repeat split; vm_compute; reflexivity. Qed.

(** ** [populateFile] *)

Section PopulateFileFacts.
Import DepRegistry.
Variable pkgRegex : str -> bool.

Lemma version_eqb_eq (a b : Version) : version_eqb a b = true <-> a = b.
Proof.
  destruct a as [s|n], b as [s'|n']; simpl; try (split; congruence).
  - rewrite str_eqb_eq. split; congruence.
  - rewrite Z.eqb_eq. split; congruence.
Qed.

Lemma register_fresh (cache registry : Registry) (i : str) (v : Version) :
  (forall c, Js.get i cache = Some c -> version c <> v) ->
  register cache i v registry
  = (Js.set i (mkEntry v [] [] []) registry, Some (mkEntry v [] [] [])).
Proof.
  intros H. unfold register.
  destruct (Js.get i cache) as [c|]; [|reflexivity].
  destruct (version_eqb (version c) v) eqn:E; [|reflexivity].
  apply version_eqb_eq in E. now destruct (H c eq_refl).
Qed.

Lemma set_set (V : Type) (k : str) (v v' : V) (o : Js.obj V) :
  Js.set k v' (Js.set k v o) = Js.set k v' o.
Proof.
  induction o as [|[k0 v0] o IH]; simpl.
  - now rewrite str_eqb_refl.
  - destruct (str_eqb k k0) eqn:E; simpl.
    + now rewrite str_eqb_refl.
    + now rewrite E, IH.
Qed.

(** C2, as the code has it. When the analysis of a project file yields no
    exports ([parser.run] returns nothing, or [hasExports] is false), nothing
    is thrown and no other entry changes, and the entry registered for the
    file stays empty: it receives neither exports nor the identifiers derived
    from the file name. *)
Theorem populateFile_without_exports (cache registry : Registry) (f : File) :
  (parsed f = None \/ exists e, parsed f = Some e /\ hasExports e = false) ->
  (forall c, Js.get (file_path f) cache = Some c ->
             version c <> VNumber (mtime f)) ->
  Js.get (file_path f) (fillFile pkgRegex cache registry f)
  = Some (mkEntry (VNumber (mtime f)) [] [] [])
  /\ forall i, i <> file_path f ->
               Js.get i (fillFile pkgRegex cache registry f) = Js.get i registry.
Proof.
  intros Hp Hc. unfold fillFile. rewrite (register_fresh _ _ _ _ Hc).
  assert (E : populateFile pkgRegex (mkEntry (VNumber (mtime f)) [] [] [])
                (file_path f) (parsed f)
              = mkEntry (VNumber (mtime f)) [] [] []).
  { destruct Hp as [->|[e [-> He]]]; simpl; [reflexivity|].
    now rewrite He. }
  rewrite E, set_set. split.
  - apply get_set_same.
  - intros i Hi. now apply get_set_other.
Qed.

End PopulateFileFacts.

Lemma populateFile_without_exports_witness :
  Js.get "/proj/foo.js"
    (DepRegistry.fillFile Common.pkgRegex [] []
       (DepRegistry.mkFile "/proj/foo.js" 7 None))
  = Some (DepRegistry.mkEntry (DepRegistry.VNumber 7) [] [] []).
Proof.
  apply (populateFile_without_exports Common.pkgRegex [] []
           (DepRegistry.mkFile "/proj/foo.js" 7 None)).
  - left. reflexivity.
  - intros c H. simpl in H. discriminate.
Defined.

(** C2 as stated fails: for [/proj/foo.js] the identifiers derived from the
    file name are [foo] and [Foo], and the entry of a file without exports
    holds neither. *)
Lemma populateFile_without_exports_counterexample :
  DepRegistry.idents
    (DepRegistry.populateIdents Common.pkgRegex fresh "/proj/foo.js")
  = strs ["foo"; "Foo"]
  /\ ~ incl
         (DepRegistry.idents
            (DepRegistry.populateIdents Common.pkgRegex fresh "/proj/foo.js"))
         (DepRegistry.idents
            (DepRegistry.populateFile Common.pkgRegex fresh "/proj/foo.js"
               None)).
Proof.
  split; [vm_compute; reflexivity|].
  intros H. apply (H (lit "foo")). vm_compute. now left.
Qed.

(** ** [populateIdents] *)

Ltac ascii_cases c :=
  destruct c as [[] [] [] [] [] [] [] []]; vm_compute; intros;
  try reflexivity; try discriminate; auto.

Lemma alnum_ident_part (c : ascii) :
  Js.is_alnum c = true -> DepRegistry.ident_part c = true.
Proof. ascii_cases c. Qed.


Lemma toUpperCase_alnum (c : ascii) :
  Js.is_alnum c = true -> Js.is_alnum (Js.toUpperCase c) = true.
Proof. ascii_cases c. Qed.

Lemma capitalize_alnum (p : str) :
  forallb Js.is_alnum p = true -> forallb Js.is_alnum (Js.capitalize p) = true.
Proof.
  destruct p as [|c p]; simpl; [reflexivity|].
  intros H. apply andb_true_iff in H as [Hc Hp].
  now rewrite toUpperCase_alnum, Hp.
Qed.

Lemma split_runs_aux_pieces (sep : ascii -> bool) (s : str) :
  forall b, Forall (fun p => forallb (fun c => negb (sep c)) p = true)
              (Js.split_runs_aux sep b s).
Proof.
  induction s as [|x s IH]; intros b; simpl.
  - repeat constructor.
  - destruct (sep x) eqn:E.
    + destruct b; [apply IH|]. constructor; [reflexivity|apply IH].
    + specialize (IH false).
      destruct (Js.split_runs_aux sep false s) as [|p ps].
      * constructor; [|constructor]. simpl. now rewrite E.
      * inversion IH; subst. constructor; [|assumption].
        simpl. rewrite E. simpl. assumption.
Qed.

Lemma mapi_from_Forall {A B} (P : A -> Prop) (Q : B -> Prop)
  (f : A -> nat -> B) (l : list A) :
  (forall a i, P a -> Q (f a i)) ->
  forall i, Forall P l -> Forall Q (Js.mapi_from i f l).
Proof.
  intros Hf. induction l as [|a l IH]; intros i H; simpl; [constructor|].
  inversion H; subst. constructor; auto.
Qed.

Lemma forallb_concat {A} (p : A -> bool) (ll : list (list A)) :
  Forall (fun l => forallb p l = true) ll -> forallb p (List.concat ll) = true.
Proof.
  induction 1 as [|l ll Hl _ IH]; simpl; [reflexivity|].
  rewrite forallb_app. now rewrite Hl, IH.
Qed.

Lemma camelCaseOf_alnum (base : str) :
  forallb Js.is_alnum (DepRegistry.camelCaseOf base) = true.
Proof.
  unfold DepRegistry.camelCaseOf, Js.mapi. apply forallb_concat.
  apply mapi_from_Forall with (P := fun p => forallb Js.is_alnum p = true).
  - intros p i Hp. destruct (i =? 0); [assumption|now apply capitalize_alnum].
  - apply incl_Forall with (l1 := Js.split_runs DepRegistry.nonWord base).
    + intros p Hp. apply filter_In in Hp. tauto.
    + unfold Js.split_runs.
      eapply Forall_impl; [|apply split_runs_aux_pieces].
      intros p Hp. rewrite forallb_forall in *. intros c Hc.
      specialize (Hp c Hc). unfold DepRegistry.nonWord in Hp.
      now rewrite negb_involutive in Hp.
Qed.







Section PopulateIdentsFacts.
Import DepRegistry.
Variable pkgRegex : str -> bool.


End PopulateIdentsFacts.


(** The class case is pushed whether or not the entry holds it already. *)
Example populateIdents_repeats_class_case :
  DepRegistry.idents (DepRegistry.populateIdents Common.pkgRegex fresh "React")
  = strs ["React"; "React"].
Proof. vm_compute. reflexivity. Qed.


(** ** Statements *)

Section StatementFacts.
Import LibImporter.

Lemma composeRequireStatement_multiline (style : Style) (id : str)
  (props : list str) :
  composeRequireStatement style id None None (Some props) true
  = Ok (requirePropsStatement style id props true).
Proof.
  rewrite composeRequireStatement_equation_1.
  cbn [requireConflict Js.truthy isSome andb orb composeDestructure bind].
  cbv zeta. destruct (bool_dec true false) as [H|_]; [discriminate|].
  reflexivity.
Qed.

Lemma composeRequireStatement_props (style : Style) (id : str)
  (props : list str) :
  composeRequireStatement style id None None (Some props) false
  = Ok (if 80 <? List.length (requirePropsStatement style id props false)
        then requirePropsStatement style id props true
        else requirePropsStatement style id props false).
Proof.
  rewrite composeRequireStatement_equation_1.
  cbn [requireConflict Js.truthy isSome andb orb composeDestructure bind].
  cbv zeta. destruct (bool_dec false false) as [_|H]; [|congruence].
  change (
    (if 80 <? List.length (requirePropsStatement style id props false)
     then composeRequireStatement style id None None (Some props) true
     else Ok (requirePropsStatement style id props false))
    = Ok (if 80 <? List.length (requirePropsStatement style id props false)
          then requirePropsStatement style id props true
          else requirePropsStatement style id props false)).
  rewrite composeRequireStatement_multiline.
  now destruct (80 <? List.length (requirePropsStatement style id props false)).
Qed.

Lemma composeRequireStatement_ident (style : Style) (id name : str)
  (multiline : bool) :
  name <> [] ->
  composeRequireStatement style id (Some name) None None multiline
  = Ok (requireIdentLine style id name).
Proof.
  intros Hne. destruct name as [|c name]; [congruence|].
  rewrite composeRequireStatement_equation_1. reflexivity.
Qed.

Lemma composeRequireStatement_default (style : Style) (id name : str)
  (multiline : bool) :
  name <> [] ->
  composeRequireStatement style id None (Some name) None multiline
  = Ok (requireDefaultLine style id name).
Proof.
  intros Hne. destruct name as [|c name]; [congruence|].
  rewrite composeRequireStatement_equation_1. reflexivity.
Qed.

Lemma composeImportStatement_multiline (style : Style) (id : str)
  (ident def : option str) (props : option (list str)) :
  Js.truthy ident && hasProps props = false ->
  composeImportStatement style id ident def props true
  = Ok (importStatement style id ident def props true).
Proof.
  intros Hc. rewrite composeImportStatement_equation_1. rewrite Hc.
  cbv zeta. destruct (bool_dec true false) as [H|_]; [discriminate|].
  unfold importStatement, importParts.
  destruct props as [[|p ps]|], (Js.truthy def), (Js.truthy ident);
    cbn [hasProps composeDestructure bind app];
    rewrite ?app_nil_r; reflexivity.
Qed.

Lemma composeImportStatement_oneLine (style : Style) (id : str)
  (ident def : option str) (props : option (list str)) :
  Js.truthy ident && hasProps props = false ->
  composeImportStatement style id ident def props false
  = Ok (if hasProps props
           && (80 <? List.length (importStatement style id ident def props false))
        then importStatement style id ident def props true
        else importStatement style id ident def props false).
Proof.
  intros Hc. rewrite composeImportStatement_equation_1. rewrite Hc.
  cbv zeta. destruct (bool_dec false false) as [_|H]; [|congruence].
  rewrite (composeImportStatement_multiline style id ident def props Hc).
  destruct props as [[|p ps]|];
    cbn [hasProps isSome andb composeDestructure bind] in *;
    destruct (Js.truthy def) eqn:Ed, (Js.truthy ident) eqn:Ei;
    try discriminate;
    unfold importStatement, importParts; rewrite ?Ed, ?Ei; cbn [app];
    lazymatch goal with
    | |- (if ?c then _ else _) = Ok (if ?c' then _ else _) =>
        change c' with c; destruct c; reflexivity
    | |- (if ?c then _ else _) = Ok _ => destruct c; reflexivity
    | |- _ => reflexivity
    end.
Qed.

Lemma oneLine_check (s : str) : existsb (Ascii.eqb Js.nl) s = false -> oneLine s.
Proof.
  intros H Hin. assert (E : existsb (Ascii.eqb Js.nl) s = true).
  { apply existsb_exists. exists Js.nl. split; [exact Hin|].
    apply Ascii.eqb_refl. }
  congruence.
Qed.

Lemma oneLine_cat (a b : str) : oneLine a -> oneLine b -> oneLine (a +++ b).
Proof.
  unfold oneLine, cat. intros Ha Hb H. apply in_app_iff in H. tauto.
Qed.

Lemma oneLine_join (sep : str) (l : list str) :
  oneLine sep -> Forall oneLine l -> oneLine (Js.join sep l).
Proof.
  intros Hsep. induction 1 as [|x l Hx Hl IH]; [intros []|].
  destruct l as [|y l]; [exact Hx|].
  change (Js.join sep (x :: y :: l)) with (x +++ sep +++ Js.join sep (y :: l)).
  auto using oneLine_cat.
Qed.

Lemma multiLine_cat_r (a b : str) : In Js.nl b -> In Js.nl (a +++ b).
Proof. intros H. apply in_app_iff. now right. Qed.

Lemma multiLine_cat_l (a b : str) : In Js.nl a -> In Js.nl (a +++ b).
Proof. intros H. apply in_app_iff. now left. Qed.

Lemma destructureMultiLine_nl (style : Style) (props : list str) :
  In Js.nl (destructureMultiLine style props).
Proof.
  unfold destructureMultiLine. apply multiLine_cat_r, multiLine_cat_l.
  now left.
Qed.

Lemma destructureOneLine_oneLine (props : list str) :
  Forall oneLine props -> oneLine (destructureOneLine props).
Proof.
  intros H. unfold destructureOneLine.
  repeat apply oneLine_cat; try (apply oneLine_check; reflexivity).
  apply oneLine_join; [apply oneLine_check; reflexivity|exact H].
Qed.

Lemma requireText_oneLine (style : Style) (id : str) :
  oneLineStyle style id -> oneLine (requireText style id).
Proof.
  intros (Hk & Hq & Hs & Hi). unfold requireText.
  repeat apply oneLine_cat; try assumption; apply oneLine_check; reflexivity.
Qed.

Lemma join_In_nl (sep : str) (l : list str) :
  (exists x, In x l /\ In Js.nl x) -> In Js.nl (Js.join sep l).
Proof.
  intros (x & Hx & Hnl). induction l as [|y l IH]; [destruct Hx|].
  destruct l as [|z l].
  - destruct Hx as [->|[]]. exact Hnl.
  - change (Js.join sep (y :: z :: l)) with (y ++ sep ++ Js.join sep (z :: l)).
    rewrite !in_app_iff. destruct Hx as [->|Hx]; [now left|].
    right. right. now apply IH.
Qed.

End StatementFacts.

(** C6. A composed statement is re-emitted with its destructure opened over
    several lines exactly when it has a props destructure and its one-line
    rendering is longer than 80 characters: a [require] of an ident or of a
    default stays on one line whatever its length; a [require] with a
    destructure and an [import] are the multi-line rendering when the
    one-line rendering exceeds 80 characters (and, for an [import], there
    are props), the one-line rendering otherwise. The multi-line rendering
    holds a line feed; the one-line renderings hold none when the style, the
    id and the names hold none. *)
Theorem multiline_iff_props_over_80 (style : LibImporter.Style) (id : str) :
  (forall name, name <> [] ->
     LibImporter.composeRequireStatement style id (Some name) None None false
     = Ok (requireIdentLine style id name))
  /\ (forall name, name <> [] ->
        LibImporter.composeRequireStatement style id None (Some name) None false
        = Ok (requireDefaultLine style id name))
  /\ (forall props,
        LibImporter.composeRequireStatement style id None None (Some props)
          false
        = Ok (if 80 <? List.length (requirePropsStatement style id props false)
              then requirePropsStatement style id props true
              else requirePropsStatement style id props false))
  /\ (forall ident def props,
        Js.truthy ident && LibImporter.hasProps props = false ->
        LibImporter.composeImportStatement style id ident def props false
        = Ok (if LibImporter.hasProps props
                 && (80 <? List.length
                              (importStatement style id ident def props false))
              then importStatement style id ident def props true
              else importStatement style id ident def props false))
  /\ (forall props, In Js.nl (requirePropsStatement style id props true))
  /\ (forall ident def p ps,
        In Js.nl (importStatement style id ident def (Some (p :: ps)) true))
  /\ (oneLineStyle style id ->
      (forall name, oneLine name ->
         oneLine (requireIdentLine style id name)
         /\ oneLine (requireDefaultLine style id name))
      /\ (forall props, Forall oneLine props ->
            oneLine (requirePropsStatement style id props false))
      /\ (forall ident def props,
            oneLineOpt ident -> oneLineOpt def ->
            Forall oneLine (match props with Some ps => ps | None => [] end) ->
            oneLine (importStatement style id ident def props false))).
Proof.
  split; [intros; now apply composeRequireStatement_ident|].
  split; [intros; now apply composeRequireStatement_default|].
  split; [apply composeRequireStatement_props|].
  split; [apply composeImportStatement_oneLine|].
  split.
  { intros props. unfold requirePropsStatement, destructure.
    apply multiLine_cat_r, multiLine_cat_r, multiLine_cat_l.
    apply destructureMultiLine_nl. }
  split.
  { intros ident def p ps. unfold importStatement.
    apply multiLine_cat_r, multiLine_cat_l. apply join_In_nl.
    exists (destructure style (p :: ps) true). split.
    - unfold importParts. rewrite !in_app_iff. right. right. now left.
    - apply destructureMultiLine_nl. }
  intros Hst. pose proof (requireText_oneLine style id Hst) as Hrt.
  destruct Hst as (Hk & Hq & Hs & Hi).
  assert (Hl : forall s, existsb (Ascii.eqb Js.nl) s = false -> oneLine s)
    by exact oneLine_check.
  split; [|split].
  - intros name Hn. split.
    + unfold requireIdentLine.
      repeat apply oneLine_cat; try assumption; apply Hl; reflexivity.
    + unfold requireDefaultLine.
      repeat apply oneLine_cat; try assumption; apply Hl; reflexivity.
  - intros props Hp. unfold requirePropsStatement, destructure.
    repeat apply oneLine_cat; try assumption;
      try (apply Hl; reflexivity).
    apply oneLine_join; [apply Hl; reflexivity|assumption].
  - intros ident def props Hident Hdef Hp. unfold importStatement.
    repeat apply oneLine_cat; try assumption; try (apply Hl; reflexivity).
    apply oneLine_join; [apply Hl; reflexivity|].
    unfold importParts. rewrite !Forall_app. repeat split.
    + destruct def as [[|c d]|]; cbn [Js.truthy]; auto.
    + destruct ident as [[|c i]|]; cbn [Js.truthy]; auto.
      constructor; [|constructor].
      apply oneLine_cat; [apply Hl; reflexivity|exact Hident].
    + destruct props as [[|p ps]|]; auto. constructor; [|constructor].
      now apply destructureOneLine_oneLine.
Qed.

Lemma multiline_iff_props_over_80_witness :
  LibImporter.composeRequireStatement style_require "fs" (Some (lit "fs")) None
    None false
  = Ok (lit "const fs = require(" ++ ["034"%char] ++ lit "fs"
        ++ ["034"%char] ++ lit ");")
  /\ oneLine (requirePropsStatement style_require "fs"
                (strs ["readFile"; "stat"]) false).
Proof.
  split.
  - apply (multiline_iff_props_over_80 style_require "fs"). discriminate.
  - apply (multiline_iff_props_over_80 style_require "fs").
    + repeat split; apply oneLine_check; reflexivity.
    + repeat constructor; apply oneLine_check; reflexivity.
Defined.

(** ** The composed block *)

Lemma compareByBasename_asym (a b : str) :
  LibImporter.compareByBasename a b = true ->
  LibImporter.compareByBasename b a = false.
Proof.
  unfold LibImporter.compareByBasename.
  rewrite (str_eqb_sym (Path.basename b) (Path.basename a)).
  destruct (str_eqb (Path.basename a) (Path.basename b)); simpl;
    apply str_ltb_asym.
Qed.

Lemma notAfter_byBasename (a b : str) :
  notAfter LibImporter.compareByBasename a b <-> byBasename a b.
Proof.
  unfold notAfter, byBasename, LibImporter.compareByBasename.
  rewrite (str_eqb_sym (Path.basename b) (Path.basename a)).
  destruct (str_eqb (Path.basename a) (Path.basename b)) eqn:E; simpl.
  - apply str_eqb_eq in E. rewrite E, str_ltb_irrefl. unfold str_le, notAfter.
    intuition congruence.
  - apply str_eqb_neq in E.
    destruct (str_ltb_total (Path.basename a) (Path.basename b))
      as [H|[H|H]]; [| contradiction |].
    + rewrite (str_ltb_asym _ _ H). intuition.
    + rewrite H. rewrite (str_ltb_asym _ _ H).
      split; [discriminate|]. intros [H'|[H' _]]; congruence.
Qed.

Lemma byBasename_trans (a b c : str) :
  byBasename a b -> byBasename b c -> byBasename a c.
Proof.
  unfold byBasename. intros [H1|[E1 L1]] [H2|[E2 L2]].
  - left. eapply str_ltb_trans; eassumption.
  - left. now rewrite <- E2.
  - left. now rewrite E1.
  - right. split; [congruence|]. eapply str_le_trans; eassumption.
Qed.

Lemma sort_byBasename (l : list str) :
  StronglySorted byBasename (Js.sort LibImporter.compareByBasename l).
Proof.
  apply Sorted_StronglySorted.
  - intros a b c. apply byBasename_trans.
  - pose proof (sort_sorted LibImporter.compareByBasename
                  compareByBasename_asym l) as H.
    induction H as [|x xs Hs IH Hhd]; constructor; [assumption|].
    destruct Hhd; constructor. now apply notAfter_byBasename.
Qed.

Lemma mapM_ok {A B} (f : A -> result B) (g : A -> B) (l : list A) :
  (forall x, In x l -> f x = Ok (g x)) -> mapM f l = Ok (map g l).
Proof.
  induction l as [|x l IH]; intros H; simpl; [reflexivity|].
  rewrite (H x (or_introl eq_refl)). simpl.
  rewrite IH by (intros y Hy; apply H; now right). reflexivity.
Qed.

Lemma mapM_mapi_from {A B} (f : A * nat -> result B) (g : A -> nat -> B)
  (l : list A) :
  (forall x i, f (x, i) = Ok (g x i)) ->
  forall i, mapM f (Js.mapi_from i (fun x i => (x, i)) l)
            = Ok (Js.mapi_from i g l).
Proof.
  intros H. induction l as [|x l IH]; intros i; simpl; [reflexivity|].
  rewrite H. simpl. now rewrite IH.
Qed.

Lemma sort_strings_nonempty (l : list str) :
  Forall (fun n => n <> []) l -> Forall (fun n => n <> []) (Js.sort_strings l).
Proof.
  intros H. rewrite Forall_forall in *. intros x Hx. apply H.
  eapply Permutation_in; [|exact Hx].
  apply Permutation_sym, sort_strings_perm.
Qed.

Section StatementsFacts.
Import LibImporter.

(** The statements of one lib: its names sorted, then emitted in that
    order. *)
Lemma composeStatements_sorted (style : Style) (lib : Lib) (i : str) :
  namedLib lib ->
  composeStatements style lib i
  = Ok (if libIsEmpty lib then []
        else statementsSorted style i
               (Js.sort_strings (lib_idents lib))
               (Js.sort_strings (lib_defaults lib))
               (Js.sort_strings (lib_props lib))).
Proof.
  intros (HI & HD & HP). unfold composeStatements, statementsSorted.
  destruct (libIsEmpty lib); [reflexivity|].
  apply sort_strings_nonempty in HI, HD, HP.
  set (I := Js.sort_strings (lib_idents lib)) in *.
  set (D := Js.sort_strings (lib_defaults lib)) in *.
  set (P := Js.sort_strings (lib_props lib)) in *.
  rewrite Forall_forall in HI, HD.
  destruct (str_eqb (requireKeyword style) "require").
  - rewrite (mapM_ok _ (requireIdentLine style i))
      by (intros x Hx; apply composeRequireStatement_ident; auto).
    rewrite (mapM_ok _ (requireDefaultLine style i))
      by (intros x Hx; apply composeRequireStatement_default; auto).
    cbn [bind]. destruct (0 <? List.length P); cbn [bind]; [|reflexivity].
    rewrite composeRequireStatement_props. reflexivity.
  - assert (E1 : forall L,
               mapM (fun '(def, n) =>
                       composeImportStatement style i (nth_error I n)
                         (Some def) None false)
                 (Js.mapi (fun def n => (def, n)) L)
               = Ok (Js.mapi (fun def n =>
                                renderImport style i (nth_error I n) (Some def)
                                  None) L)).
    { intros L. unfold Js.mapi. apply mapM_mapi_from. intros x n.
      rewrite composeImportStatement_oneLine; [reflexivity|].
      apply andb_false_r. }
    assert (E2 : forall L,
               mapM (fun ident =>
                       composeImportStatement style i (Some ident) None None
                         false) L
               = Ok (map (fun ident =>
                            renderImport style i (Some ident) None None) L)).
    { intros L. apply mapM_ok. intros x _.
      rewrite composeImportStatement_oneLine; [reflexivity|].
      apply andb_false_r. }
    destruct (0 <? List.length P).
    + rewrite composeImportStatement_oneLine by reflexivity.
      cbn [bind]. rewrite E1. cbn [bind]. rewrite E2. reflexivity.
    + cbn [bind]. rewrite E1. cbn [bind]. rewrite E2. reflexivity.
Qed.

End StatementsFacts.

(** C5. On the code a project file can land among the packages. The libs
    hold the package [zlib] and the project files [/proj/.hidden.js] and
    [/proj/lib/b.js]. Made relative to [/proj], the first file becomes
    [.hidden.js]: it starts with a dot, so no [./] is put before it, and
    [fileRegex] does not take it for a file. Its statement is emitted in the
    first group, before that of [zlib], and requires [.hidden.js]; only
    [./lib/b.js] follows the empty line. *)
Theorem composeRequires_dot_file_among_packages :
  Path.isAbsolute (lit "/proj/.hidden.js") = true
  /\ Path.relative "/proj" "/proj/.hidden.js" = lit ".hidden.js"
  /\ LibImporter.relativeID Path.relative "/proj" "/proj/.hidden.js"
     = lit ".hidden.js"
  /\ Common.fileRegex ".hidden.js" = false
  /\ LibImporter.composeRequires Common.fileRegex Path.relative style_require
       "/proj" libs_hidden
     = Ok (requireLine "hidden" ".hidden.js" ++ Js.NL
           ++ requireLine "zlib" "zlib" ++ Js.NL
           ++ Js.NL
           ++ requireLine "b" "./lib/b.js")
  /\ LibImporter.composeRequires Common.fileRegex Path.relative style_require
       "/proj" libs_hidden
     <> Ok (requireLine "zlib" "zlib" ++ Js.NL
            ++ Js.NL
            ++ requireLine "hidden" "./.hidden.js" ++ Js.NL
            ++ requireLine "b" "./lib/b.js").
Proof.
  repeat split; try (vm_compute; reflexivity).
  vm_compute. discriminate.
Qed.

(** ** The rewritten text *)

Section NewlineFacts.
Import LibImporter.

Lemma sliceLast_rev (n : nat) (r : str) :
  sliceLast n (rev r) = rev (firstn n r).
Proof.
  unfold sliceLast. rewrite length_rev, skipn_rev. f_equal.
  destruct (Nat.le_gt_cases n (List.length r)).
  - f_equal. lia.
  - rewrite !firstn_all2 by lia. reflexivity.
Qed.

Lemma dropLast_rev (r : str) : dropLast (rev r) = rev (skipn 1 r).
Proof.
  unfold dropLast. rewrite length_rev, firstn_rev. f_equal.
  destruct r as [|c r]; [reflexivity|].
  replace (List.length (c :: r) - (List.length (c :: r) - 1)) with 1
    by (cbn [List.length]; lia).
  reflexivity.
Qed.

(** [finishNewline] on a text given by its characters from the end. *)
Lemma finishNewline_rev (r : str) :
  finishNewline (rev r)
  = rev match r with
        | [] => [Js.nl]
        | c :: r' =>
            if Ascii.eqb c Js.nl then
              match r' with
              | c' :: _ => if Ascii.eqb c' Js.nl then r' else r
              | [] => r
              end
            else Js.nl :: r
        end.
Proof.
  unfold finishNewline. rewrite !sliceLast_rev, dropLast_rev.
  destruct r as [|c r']; [reflexivity|].
  cbn [firstn rev app]. 
  destruct (Ascii.eqb_spec c Js.nl) as [->|Hc].
  - change (str_eqb [Js.nl] Js.NL) with true. cbn [negb].
    destruct r' as [|c' r'']; [reflexivity|].
    cbn [firstn rev app].
    destruct (Ascii.eqb_spec c' Js.nl) as [->|Hc']; [reflexivity|].
    assert (E : str_eqb [c'; Js.nl] (Js.NL +++ Js.NL) = false).
    { apply str_eqb_neq. intros H. injection H as H. contradiction. }
    now rewrite E.
  - assert (E : str_eqb [c] Js.NL = false).
    { apply str_eqb_neq. intros H. injection H as H. contradiction. }
    rewrite E. reflexivity.
Qed.

Lemma endsWith_NL_rev (r : str) :
  Js.endsWith Js.NL (rev r)
  = match r with c :: _ => Ascii.eqb Js.nl c | [] => false end.
Proof.
  unfold Js.endsWith. rewrite rev_involutive. destruct r as [|c r]; simpl;
    [reflexivity|]. now rewrite andb_true_r.
Qed.

Lemma trailingNewlines_rev (r : str) :
  trailingNewlines (rev r) = List.length (Path.takeWhile (Ascii.eqb Js.nl) r).
Proof. unfold trailingNewlines. now rewrite rev_involutive. Qed.

(** The last step leaves a text that ends with a line feed, and takes away
    at most one line feed. *)
Lemma finishNewline_ends (s : str) :
  Js.endsWith Js.NL (finishNewline s) = true
  /\ trailingNewlines (finishNewline s) = Nat.max 1 (trailingNewlines s - 1).
Proof.
  rewrite <- (rev_involutive s). rewrite finishNewline_rev.
  rewrite endsWith_NL_rev, !trailingNewlines_rev.
  destruct (rev s) as [|c r']; [split; reflexivity|].
  destruct (Ascii.eqb_spec c Js.nl) as [->|Hc].
  - destruct r' as [|c' r'']; [split; reflexivity|].
    destruct (Ascii.eqb_spec c' Js.nl) as [->|Hc'].
    + split; [reflexivity|]. cbn [Path.takeWhile]. rewrite !Ascii.eqb_refl.
      cbn [List.length]. lia.
    + split; [apply Ascii.eqb_refl|]. cbn [Path.takeWhile].
      rewrite Ascii.eqb_refl.
      assert (E : Ascii.eqb Js.nl c' = false)
        by (apply Ascii.eqb_neq; congruence).
      rewrite E. reflexivity.
  - split; [reflexivity|]. cbn [Path.takeWhile]. rewrite Ascii.eqb_refl.
    assert (E : Ascii.eqb Js.nl c = false)
      by (apply Ascii.eqb_neq; congruence).
    rewrite E. reflexivity.
Qed.

End NewlineFacts.

Lemma linesText_app (a b : list str) :
  linesText (a ++ b) = linesText a ++ linesText b.
Proof. unfold linesText. now rewrite map_app, concat_app. Qed.

Lemma linesText_cons (x : str) (l : list str) :
  linesText (x :: l) = x ++ Js.NL ++ linesText l.
Proof. unfold linesText. simpl. now rewrite <- app_assoc. Qed.


Section RewriteFacts.
Import LibImporter.
Variable fileRegex : str -> bool.
Variable whiteRegex : str -> bool.
Variable relative : str -> str -> str.

(** The line loop when only line 0 is removed and no target line is set:
    every line, in order. *)
Lemma emitLines_from (requiresText : str) (post pre : list str) (acc : str) :
  fold_left
    (fun newCode line =>
       let newCode1 :=
         if negb (has line [0])
         then newCode +++ toString (getLineText (pre ++ post) line) +++ Js.NL
         else newCode in
       if match @None nat with Some t => line =? t | None => false end
          && (0 <? List.length requiresText)
       then newCode1 +++ requiresText +++ Js.NL
       else newCode1)
    (seq (S (List.length pre)) (List.length post)) acc
  = acc ++ linesText post.
Proof.
  revert pre acc. induction post as [|x post IH]; intros pre acc.
  - simpl. now rewrite app_nil_r.
  - cbn [List.length seq fold_left].
    replace (pre ++ x :: post) with ((pre ++ [x]) ++ post)
      by (now rewrite <- app_assoc).
    replace (S (S (List.length pre))) with (S (List.length (pre ++ [x])))
      by (rewrite length_app; simpl; lia).
    rewrite IH. cbn [has existsb Nat.eqb orb negb andb getLineText].
    assert (E : nth_error ((pre ++ [x]) ++ post) (List.length pre) = Some x).
    { rewrite <- app_assoc, nth_error_app2 by lia.
      now rewrite Nat.sub_diag. }
    rewrite E. cbn [toString]. rewrite linesText_cons.
    unfold cat. now rewrite <- !app_assoc.
Qed.

Lemma emitLines_plain (textLines : list str) (requiresText : str) :
  emitLines textLines [0] None requiresText = linesText textLines.
Proof.
  unfold emitLines. cbn [seq fold_left].
  cbn [has existsb Nat.eqb orb negb andb].
  exact (emitLines_from requiresText textLines [] []).
Qed.

Lemma resolveIdents_no_reqs (context : Context)
  (search : str -> option DepRegistry.DepInfo) :
  reqs context = [] -> snd (resolveIdents whiteRegex context search) = [].
Proof.
  intros H. unfold resolveIdents. rewrite H. reflexivity.
Qed.

Lemma setAt_split (k : nat) (v l : str) (textLines : list str) :
  nth_error textLines k = Some l ->
  setAt k v textLines = firstn k textLines ++ v :: skipn (S k) textLines
  /\ textLines = firstn k textLines ++ l :: skipn (S k) textLines.
Proof.
  revert k. induction textLines as [|x tl IH]; intros [|k] H;
    try discriminate.
  - injection H as ->. split; reflexivity.
  - destruct (IH k H) as [E1 E2]. split.
    + cbn [setAt firstn skipn app]. now rewrite E1.
    + cbn [firstn app]. f_equal. exact E2.
Qed.

End RewriteFacts.


Section RewriteCodeFacts.
Import LibImporter.
Variable fileRegex : str -> bool.
Variable whiteRegex : str -> bool.
Variable relative : str -> str -> str.

(** C7, as the code has it. The text [rewriteCode] returns ends with a line
    feed, and its last step removes at most one: the text is the one built
    by the line loop with one line feed less when that one ends with two or
    more, and with exactly one at its end otherwise. This holds for both
    importers, each with the text its own line loop builds. *)
Theorem rewriteCode_trailing_newline :
  (forall context search dir out,
     rewriteCode fileRegex whiteRegex relative context search dir = Ok out ->
     Js.endsWith Js.NL out = true
     /\ exists libsToAdd linesToRemove requiresText textLines' requiresText'
          targetLine,
          resolveIdents whiteRegex context search = (libsToAdd, linesToRemove)
          /\ composeRequires fileRegex relative (style context) dir libsToAdd
             = Ok requiresText
          /\ placeRequires context requiresText
             = Ok (textLines', requiresText', targetLine)
          /\ out = finishNewline
                     (emitLines textLines' (add 0 linesToRemove) targetLine
                        requiresText')
          /\ trailingNewlines out
             = Nat.max 1
                 (trailingNewlines
                    (emitLines textLines' (add 0 linesToRemove) targetLine
                       requiresText') - 1))
  /\ (forall composeRequires lines reqs missingIdents search dir out,
        Importer.rewriteCode composeRequires lines reqs missingIdents search
          dir = Ok out ->
        Js.endsWith Js.NL out = true
        /\ exists libsToAdd linesToRemove requiresText addRequiresLine,
             Importer.resolveIdents missingIdents search reqs
             = Ok (libsToAdd, linesToRemove)
             /\ composeRequires libsToAdd dir = Ok requiresText
             /\ ((reqs = [] /\ addRequiresLine = 0)
                 \/ exists r rest n,
                      reqs = r :: rest /\ node r = Some n
                      /\ addRequiresLine = line (loc_start n))
             /\ out = finishNewline
                        (Importer.emitLines ([] :: lines)
                           (add 0 linesToRemove) addRequiresLine requiresText
                           (0 <? List.length reqs))
             /\ trailingNewlines out
                = Nat.max 1
                    (trailingNewlines
                       (Importer.emitLines ([] :: lines)
                          (add 0 linesToRemove) addRequiresLine requiresText
                          (0 <? List.length reqs)) - 1)).
Proof.
  split.
  - intros context search dir out. unfold rewriteCode.
    destruct (resolveIdents whiteRegex context search) as [libs lines] eqn:R.
    destruct (composeRequires fileRegex relative (style context) dir libs)
      as [req|m] eqn:C; [|discriminate].
    cbn [bind].
    destruct (placeRequires context req) as [[[tl rt] target]|m] eqn:P;
      [|discriminate].
    cbn [bind]. intros H. injection H as <-.
    split; [apply finishNewline_ends|].
    exists libs, lines, req, tl, rt, target.
    repeat split; try assumption. apply finishNewline_ends.
  - intros composeRequires lines reqs missingIdents search dir out.
    unfold Importer.rewriteCode.
    destruct (Importer.resolveIdents missingIdents search reqs)
      as [[libs ls]|m]; [|discriminate].
    cbn [bind]. destruct (composeRequires libs dir) as [req|m] eqn:C;
      [|discriminate].
    cbn [bind].
    destruct reqs as [|r rest].
    + cbn [bind]. intros H. injection H as <-.
      split; [apply finishNewline_ends|].
      exists libs, ls, req, 0. repeat split; try reflexivity.
      * exact C.
      * now left.
      * apply finishNewline_ends.
    + destruct (node r) as [n|] eqn:Hn; [|discriminate].
      cbn [bind]. intros H. injection H as <-.
      split; [apply finishNewline_ends|].
      exists libs, ls, req, (line (loc_start n)).
      repeat split; try reflexivity.
      * exact C.
      * right. now exists r, rest, n.
      * apply finishNewline_ends.
Qed.


(** The splice as the code has it. Without imports, with a non-empty block
    and a directive that shares line [n] with other text, the block is
    spliced into that line at the directive's end column [c], between two
    pairs of line feeds; the lines before and after are emitted unchanged,
    and so is the text of line [n] except for its character at column [c],
    which is not emitted, whatever it is. *)
Lemma rewriteCode_splices_into_line (context : Context)
  (search : str -> option DepRegistry.DepInfo) (dir block : str)
  (directive : Loc) (l : str) :
  reqs context = [] ->
  composeRequires fileRegex relative (style context) dir
    (fst (resolveIdents whiteRegex context search)) = Ok block ->
  block <> [] ->
  getUseStrict context = Some directive ->
  endsLine context directive = false ->
  getLineText (textLines context) (line (loc_end directive)) = Some l ->
  textLines context
  = firstn (line (loc_end directive) - 1) (textLines context)
    ++ l :: skipn (line (loc_end directive)) (textLines context)
  /\ rewriteCode fileRegex whiteRegex relative context search dir
     = Ok (finishNewline
             (linesText
                (firstn (line (loc_end directive) - 1) (textLines context))
              ++ (firstn (column (loc_end directive)) l
                  ++ Js.NL ++ Js.NL ++ block ++ Js.NL ++ Js.NL
                  ++ skipn (column (loc_end directive) + 1) l)
              ++ Js.NL
              ++ linesText
                   (skipn (line (loc_end directive)) (textLines context)))).
Proof.
  intros Hreqs Hc Hne Hd He Hl.
  destruct (line (loc_end directive)) as [|k] eqn:Ek; [discriminate|].
  cbn [getLineText] in Hl. replace (S k - 1) with k by lia.
  split; [now apply (setAt_split k l l)|].
  unfold rewriteCode.
  pose proof (resolveIdents_no_reqs whiteRegex context search Hreqs) as Hlines.
  destruct (resolveIdents whiteRegex context search) as [libs lines].
  cbn [fst snd] in *. subst lines. rewrite Hc. cbn [bind].
  unfold placeRequires. rewrite Hreqs, Hd, He, Ek.
  assert (Hb : (0 <? List.length block) = true)
    by (destruct block; [congruence|reflexivity]).
  rewrite Hb. cbn [getLineText]. rewrite Hl. cbn [bind].
  change (add 0 []) with [0]. rewrite emitLines_plain.
  replace (S k - 1) with k by lia.
  destruct (setAt_split k
              (firstn (column (loc_end directive)) l +++ Js.NL +++ Js.NL
               +++ block +++ Js.NL +++ Js.NL
               +++ skipn (column (loc_end directive) + 1) l)
              l (textLines context) Hl) as [-> _].
  rewrite linesText_app, linesText_cons. unfold cat.
  now rewrite <- !app_assoc.
Qed.

End RewriteCodeFacts.

Lemma rewriteCode_trailing_newline_witness :
  Js.endsWith Js.NL (lit "a" ++ Js.NL) = true.
Proof.
  apply (proj1 (rewriteCode_trailing_newline Common.fileRegex
                  Common.whiteRegex Path.relative)
           (plainContext [lit "a"; []]) noSearch "/proj" (lit "a" ++ Js.NL)).
  vm_compute. reflexivity.
Defined.

(** C7 as stated fails: the code made of [a] and two line feeds comes back
    unchanged, ending with two line feeds. *)
Lemma rewriteCode_trailing_newline_counterexample :
  textLinesOf (lit "a" ++ Js.NL ++ Js.NL) = [lit "a"; []; []]
  /\ LibImporter.rewriteCode Common.fileRegex Common.whiteRegex Path.relative
       (plainContext [lit "a"; []; []]) noSearch "/proj"
     = Ok (lit "a" ++ Js.NL ++ Js.NL)
  /\ Js.endsWith (Js.NL ++ Js.NL) (lit "a" ++ Js.NL ++ Js.NL) = true.
Proof. repeat split; vm_compute; reflexivity. Qed.

(** The importer of [src/importer.js] does the same: the lines of the code
    made of [a] and two line feeds are [a] and two empty lines, and the
    text comes back ending with two line feeds. *)
Example old_rewriteCode_keeps_newlines :
  Importer.rewriteCode (fun _ _ => Ok []) [lit "a"; []; []] [] [] noSearch
    "/proj"
  = Ok (lit "a" ++ Js.NL ++ Js.NL).
Proof. vm_compute. reflexivity. Qed.



(** With a space after the directive, the space is what is left out. *)
Example rewriteCode_splices_after_space :
  skipn 13 useStrictLine = lit " foo();"
  /\ LibImporter.rewriteCode Common.fileRegex Common.whiteRegex Path.relative
       sharedLineContext searchFoo "/proj"
     = Ok (useStrictOnly ++ Js.NL ++ Js.NL ++ requireBar ++ Js.NL ++ Js.NL
           ++ lit "foo();" ++ Js.NL).
Proof. split; vm_compute; reflexivity. Qed.

(** C9. On the code a character of the line is lost. The directive
    ["use strict";] ends at column 13 and is followed at once by the call
    [foo();], whose [foo] resolves to the package [bar]. The block is
    spliced in after the directive, but the rest of the line comes back as
    [oo();]: the character at the directive's end column, here the first of
    the call, is skipped. *)
Theorem rewriteCode_splice_drops_character :
  LibImporter.textLines tightLineContext = [useStrictTight; []]
  /\ firstn 13 useStrictTight = useStrictOnly
  /\ skipn 13 useStrictTight = lit "foo();"
  /\ LibImporter.rewriteCode Common.fileRegex Common.whiteRegex Path.relative
       tightLineContext searchFoo "/proj"
     = Ok (useStrictOnly ++ Js.NL ++ Js.NL ++ requireBar ++ Js.NL ++ Js.NL
           ++ lit "oo();" ++ Js.NL)
  /\ LibImporter.rewriteCode Common.fileRegex Common.whiteRegex Path.relative
       tightLineContext searchFoo "/proj"
     <> Ok (useStrictOnly ++ Js.NL ++ Js.NL ++ requireBar ++ Js.NL ++ Js.NL
            ++ lit "foo();" ++ Js.NL).
Proof.
  repeat split; try (vm_compute; reflexivity).
  vm_compute. discriminate.
Qed.

(** ** The entry point of [src/importer.js] *)

Section RunFacts.
Import Importer.
Variable Promise : Type.
Variable resolve : str -> str.
Variable pipeline : str -> value -> Promise.

(** C10. [run] throws [must provide code and dir] at once, and returns no
    promise, whenever the code or the directory is falsy; the empty string is
    such a code. *)
Theorem run_requires_code_and_dir (code dir : value) :
  truthy code = false \/ truthy dir = false ->
  run Promise resolve pipeline code dir = Throw "must provide code and dir"
  /\ run Promise resolve pipeline (VStr []) dir
     = Throw "must provide code and dir"
  /\ forall p, run Promise resolve pipeline code dir <> Ok p.
Proof.
  intros H. unfold run.
  assert (E : negb (truthy code) || negb (truthy dir) = true).
  { destruct H as [-> | ->]; [reflexivity|apply orb_true_r]. }
  rewrite E. repeat split. discriminate.
Qed.

End RunFacts.

Lemma run_requires_code_and_dir_witness :
  Importer.run unit (fun d => d) (fun _ _ => tt) (Importer.VStr [])
    (Importer.VStr "/proj")
  = Throw "must provide code and dir".
Proof.
  apply (run_requires_code_and_dir unit (fun d => d) (fun _ _ => tt)
           (Importer.VStr []) (Importer.VStr "/proj")).
  left. reflexivity.
Defined.

Lemma registry_entries_promoted_witness :
  incl (strs ["lodash"; "Lodash"])
    (DepRegistry.defaults
       (DepRegistry.populatePropsDefaults
          (DepRegistry.populateIdents Common.pkgRegex fresh "lodash")
          (Some (DepRegistry.mkProbe (strs ["map"]) true)))).
Proof.
  apply (proj1 (proj2 (registry_entries_promoted Common.pkgRegex []))
           (DepRegistry.VNumber 1) (lit "lodash")
           (DepRegistry.mkProbe (strs ["map"]) true)).
  reflexivity.
Defined.

(** * Further properties of the registry *)

Section ReverseIndexFacts.
Import DepRegistry.
Variable pkgRegex : str -> bool.

Lemma mkDep_eta (d : DepInfo) : mkDep (id d) (priority d) (type d) = d.
Proof. now destruct d. Qed.

Lemma fold_associateAll (i : str) (p : nat) (t : types.t) (names : list str)
  (deps : Deps) :
  associateAll i p t names deps
  = fold_left
      (fun d c => associate d (fst c) (id (snd c)) (priority (snd c))
                    (type (snd c)))
      (map (fun n => (n, mkDep i p t)) names) deps.
Proof.
  unfold associateAll. revert deps.
  induction names as [|n names IH]; intros deps; simpl; [reflexivity|].
  apply IH.
Qed.

Lemma computeDeps_candidates (builtinLibs : list str) (registry : Registry) :
  computeDeps pkgRegex builtinLibs registry
  = fold_left
      (fun d c => associate d (fst c) (id (snd c)) (priority (snd c))
                    (type (snd c)))
      (candidates pkgRegex builtinLibs registry) [].
Proof.
  unfold computeDeps, candidates. generalize (@nil (str * DepInfo)) as deps.
  induction registry as [|[i e] registry IH]; intros deps; [reflexivity|].
  cbn [fold_left flat_map]. rewrite fold_left_app. rewrite IH. f_equal.
  unfold entryCandidates. cbn [fst snd].
  rewrite !fold_left_app, <- !fold_associateAll. reflexivity.
Qed.

(** The own property [name] of the deps after a run of calls is the fold of
    [associateStep] over the candidates of that name, for a name that
    [Object.prototype] does not hold. *)
Lemma get_fold_own (name : str) (cs : list (str * DepInfo)) (deps : Deps) :
  Js.inherited name = false ->
  Js.get name
    (fold_left
       (fun d c => associate d (fst c) (id (snd c)) (priority (snd c))
                     (type (snd c))) cs deps)
  = fold_left associateStep (candidatesOf name cs) (Js.get name deps).
Proof.
  intros Hn. revert deps.
  induction cs as [|[n d] cs IH]; intros deps; [reflexivity|].
  cbn [fold_left fst snd]. rewrite IH. unfold candidatesOf.
  cbn [filter fst]. destruct (str_eqb n name) eqn:E.
  - apply str_eqb_eq in E. subst n. cbn [map snd fold_left]. f_equal.
    rewrite associate_replaces by exact Hn. rewrite mkDep_eta.
    unfold associateStep, isProp. reflexivity.
  - f_equal. apply associate_other. apply str_eqb_neq in E. congruence.
Qed.

(** A name that [Object.prototype] holds never becomes a key of the deps. *)
Lemma get_fold_inherited (name : str) (cs : list (str * DepInfo))
  (deps : Deps) :
  Js.inherited name = true -> Js.get name deps = None ->
  Js.get name
    (fold_left
       (fun d c => associate d (fst c) (id (snd c)) (priority (snd c))
                     (type (snd c))) cs deps)
  = None.
Proof.
  intros Hn. revert deps.
  induction cs as [|[n d] cs IH]; intros deps G; [exact G|].
  cbn [fold_left fst snd]. apply IH.
  destruct (str_eqb n name) eqn:E.
  - apply str_eqb_eq in E. subst n. now rewrite associate_inherited.
  - rewrite associate_other; [exact G|]. apply str_eqb_neq in E. congruence.
Qed.

Lemma search_computeDeps (builtinLibs : list str) (registry : Registry)
  (name : str) :
  search (computeDeps pkgRegex builtinLibs registry) name
  = if Js.inherited name then Js.Inherited
    else ownDep
           (fold_left associateStep
              (candidatesOf name (candidates pkgRegex builtinLibs registry))
              None).
Proof.
  rewrite computeDeps_candidates. unfold search, Js.read.
  destruct (Js.inherited name) eqn:Hn.
  - now rewrite get_fold_inherited.
  - rewrite get_fold_own by exact Hn. cbn [Js.get].
    now destruct (fold_left associateStep _ None).
Qed.

Lemma associateStep_fold_In (ds : list DepInfo) (r : option DepInfo)
  (d : DepInfo) :
  fold_left associateStep ds r = Some d -> r = Some d \/ In d ds.
Proof.
  revert r. induction ds as [|x ds IH]; intros r H; [now left|].
  cbn [fold_left] in H. apply IH in H as [H|H]; [|right; now right].
  unfold associateStep in H. destruct r as [e|].
  - destruct ((priority e <? priority x) || (isProp e && negb (isProp x)));
      injection H as <-; [right; now left|now left].
  - injection H as <-. right. now left.
Qed.

Lemma associateStep_fold_Some (ds : list DepInfo) (r : option DepInfo) :
  (r <> None \/ ds <> []) -> fold_left associateStep ds r <> None.
Proof.
  revert r. induction ds as [|x ds IH]; intros r H.
  - destruct H as [H|H]; [exact H|congruence].
  - cbn [fold_left]. apply IH. left. unfold associateStep.
    destruct r as [e|]; [|discriminate].
    now destruct ((priority e <? priority x) || (isProp e && negb (isProp x))).
Qed.

Lemma candidatesOf_In (name : str) (d : DepInfo) (cs : list (str * DepInfo)) :
  In d (candidatesOf name cs) <-> In (name, d) cs.
Proof.
  unfold candidatesOf. rewrite in_map_iff. split.
  - intros ([n d'] & <- & H). apply filter_In in H as [H E].
    apply str_eqb_eq in E. cbn [fst snd] in *. now subst.
  - intros H. exists (name, d). split; [reflexivity|].
    apply filter_In. split; [exact H|apply str_eqb_refl].
Qed.

Lemma candidates_In (builtinLibs : list str) (registry : Registry)
  (name : str) (d : DepInfo) :
  In (name, d) (candidates pkgRegex builtinLibs registry)
  <-> exists e, In (id d, e) registry
                /\ priority d = priorityOf pkgRegex builtinLibs (id d)
                /\ exports e (type d) name.
Proof.
  unfold candidates. rewrite in_flat_map. split.
  - intros ([i e] & Hreg & H). exists e. unfold entryCandidates in H.
    cbn [fst snd] in H. rewrite !in_app_iff, !in_map_iff in H.
    destruct H as [(n & E & Hn)|[(n & E & Hn)|(n & E & Hn)]];
      injection E as <- <-; cbn [id priority type exports]; auto.
  - intros (e & Hreg & Hp & He). exists (id d, e). split; [exact Hreg|].
    unfold entryCandidates. cbn [fst snd]. rewrite !in_app_iff, !in_map_iff.
    destruct d as [i p t]. cbn [id priority type] in *. subst p.
    destruct t; cbn [exports] in He; eauto 6.
Qed.

Lemma search_candidate (builtinLibs : list str) (registry : Registry)
  (name : str) (d : DepInfo) :
  search (computeDeps pkgRegex builtinLibs registry) name = Js.Own d ->
  Js.inherited name = false
  /\ In (name, d) (candidates pkgRegex builtinLibs registry).
Proof.
  rewrite search_computeDeps.
  destruct (Js.inherited name); [discriminate|]. intros H.
  split; [reflexivity|].
  destruct (fold_left associateStep _ None) as [e|] eqn:F;
    cbn [ownDep] in H; [|discriminate].
  injection H as ->.
  apply associateStep_fold_In in F as [F|F]; [discriminate|].
  now apply candidatesOf_In in F.
Qed.

(** The fold over the candidates of a name ends with a dep exactly when some
    entry exports the name. *)
Lemma candidates_exported (builtinLibs : list str) (registry : Registry)
  (name : str) :
  fold_left associateStep
    (candidatesOf name (candidates pkgRegex builtinLibs registry)) None
  <> None
  <-> exists i e t, In (i, e) registry /\ exports e t name.
Proof.
  split.
  - destruct (fold_left associateStep _ None) as [d|] eqn:F;
      [intros _|congruence].
    apply associateStep_fold_In in F as [F|F]; [discriminate|].
    apply candidatesOf_In, candidates_In in F as (e & H1 & _ & H2).
    now exists (id d), e, (type d).
  - intros (i & e & t & Hreg & He). apply associateStep_fold_Some. right.
    assert (H : In (mkDep i (priorityOf pkgRegex builtinLibs i) t)
                  (candidatesOf name
                     (candidates pkgRegex builtinLibs registry))).
    { apply candidatesOf_In, candidates_In. now exists e. }
    intros E. rewrite E in H. destruct H.
Qed.

(** X1. A dep that [search] returns is a real export: its name is not one
    that [Object.prototype] holds, its id is an id of the registry whose
    entry lists the name under the kind the dep gives, and its priority is
    the one [computeDeps] assigns to that id. *)
Theorem search_sound (builtinLibs : list str) (registry : Registry)
  (name : str) (d : DepInfo) :
  search (computeDeps pkgRegex builtinLibs registry) name = Js.Own d ->
  Js.inherited name = false
  /\ exists e, In (id d, e) registry
               /\ priority d = priorityOf pkgRegex builtinLibs (id d)
               /\ exports e (type d) name.
Proof.
  intros H. apply search_candidate in H as [Hn H].
  split; [exact Hn|]. now apply candidates_In in H.
Qed.

(** X2. What [search] answers. For a name that [Object.prototype] holds it
    returns the inherited member, whether or not an entry exports the name.
    For any other name it returns a dep exactly when some entry of the
    registry exports the name, as an ident, a default or a prop, and
    [undefined] exactly when none does. *)
Theorem search_defined_iff_exported (builtinLibs : list str)
  (registry : Registry) (name : str) :
  (search (computeDeps pkgRegex builtinLibs registry) name = Js.Inherited
   <-> Js.inherited name = true)
  /\ ((exists d,
         search (computeDeps pkgRegex builtinLibs registry) name = Js.Own d)
      <-> Js.inherited name = false
          /\ exists i e t, In (i, e) registry /\ exports e t name)
  /\ (search (computeDeps pkgRegex builtinLibs registry) name = Js.Undefined
      <-> Js.inherited name = false
          /\ ~ exists i e t, In (i, e) registry /\ exports e t name).
Proof.
  rewrite search_computeDeps.
  pose proof (candidates_exported builtinLibs registry name) as HE.
  destruct (Js.inherited name).
  - split; [tauto|]. split.
    + split; [intros [d H]; discriminate|intros [H _]; discriminate].
    + split; [discriminate|intros [H _]; discriminate].
  - destruct (fold_left associateStep _ None) as [d|]; cbn [ownDep].
    + split; [split; discriminate|]. split.
      * split; [intros _; split; [reflexivity|]|intros _; now exists d].
        apply HE. discriminate.
      * split; [discriminate|]. intros [_ H]. exfalso. apply H, HE.
        discriminate.
    + split; [split; discriminate|]. split.
      * split; [intros [d H]; discriminate|]. intros [_ H].
        apply HE in H. congruence.
      * split; [|reflexivity]. intros _. split; [reflexivity|].
        intros H. apply HE in H. congruence.
Qed.

Lemma associateStep_keeps (p : nat) (ds : list DepInfo) (e : DepInfo) :
  priority e = p -> Forall (fun d => priority d = p) ds ->
  fold_left associateStep ds (Some e)
  = if isProp e
    then match find (fun d => negb (isProp d)) ds with
         | Some d => Some d
         | None => Some e
         end
    else Some e.
Proof.
  intros He Hds. revert e He.
  induction Hds as [|x ds Hx Hds IH]; intros e He.
  - simpl. now destruct (isProp e).
  - cbn [fold_left associateStep find].
    assert (Hlt : (priority e <? priority x) = false)
      by (apply Nat.ltb_ge; lia).
    rewrite Hlt. cbn [orb].
    destruct (isProp e) eqn:Ee; cbn [andb].
    + destruct (isProp x) eqn:Ex; cbn [negb].
      * rewrite (IH e He), Ee. reflexivity.
      * rewrite (IH x Hx), Ex. reflexivity.
    + rewrite (IH e He), Ee. reflexivity.
Qed.

(** X3. Among candidates of one priority the first registered wins, except
    that an ident or a default wins over props: when every entry that exports
    [name] has the same priority, and [name] is not one that
    [Object.prototype] holds, [search] returns the first candidate that is
    not a prop, and the first candidate when all are props. For a name that
    [Object.prototype] holds it returns the inherited member and no
    candidate. *)
Theorem search_ties (builtinLibs : list str) (registry : Registry)
  (name : str) (p : nat) :
  Forall (fun d => priority d = p)
    (candidatesOf name (candidates pkgRegex builtinLibs registry)) ->
  search (computeDeps pkgRegex builtinLibs registry) name
  = if Js.inherited name then Js.Inherited
    else match find (fun d => negb (isProp d))
                 (candidatesOf name
                    (candidates pkgRegex builtinLibs registry))
         with
         | Some d => Js.Own d
         | None =>
             ownDep
               (hd_error
                  (candidatesOf name
                     (candidates pkgRegex builtinLibs registry)))
         end.
Proof.
  rewrite search_computeDeps.
  destruct (Js.inherited name); [reflexivity|].
  destruct (candidatesOf name (candidates pkgRegex builtinLibs registry))
    as [|d ds]; [reflexivity|].
  intros H. inversion H as [|? ? Hd Hds]; subst.
  cbn [fold_left associateStep find hd_error].
  rewrite (associateStep_keeps (priority d) ds d eq_refl Hds).
  destruct (isProp d); cbn [negb ownDep]; [|reflexivity].
  now destruct (find (fun d0 => negb (isProp d0)) ds).
Qed.

End ReverseIndexFacts.

Lemma search_sound_witness :
  Js.inherited (lit "fs") = false
  /\ exists e,
       In (lit "fs", e)
         (fst (DepRegistry.populate Common.pkgRegex [] world_fs))
       /\ 3 = DepRegistry.priorityOf Common.pkgRegex (strs ["fs"]) "fs"
       /\ In (lit "fs") (DepRegistry.idents e).
Proof.
  apply (search_sound Common.pkgRegex (strs ["fs"])
           (fst (DepRegistry.populate Common.pkgRegex [] world_fs)) "fs"
           (DepRegistry.mkDep "fs" 3 DepRegistry.types.ident)).
  vm_compute. reflexivity.
Defined.

Lemma search_ties_witness :
  DepRegistry.search
    (snd (DepRegistry.populate Common.pkgRegex [] world_two_files)) "x"
  = Js.Own (DepRegistry.mkDep "/proj/b.js" 2 DepRegistry.types.ident).
Proof.
  etransitivity.
  - apply (search_ties Common.pkgRegex []
             (fst (DepRegistry.populate Common.pkgRegex [] world_two_files))
             "x" 2).
    vm_compute. repeat constructor.
  - vm_compute. reflexivity.
Defined.

(** The package [lodash] exports [map] and [toString]: [map] resolves to
    it, [toString] to the member that the deps inherit; and a package that
    is called [constructor] gets the priority of a built-in module. *)
Example search_name_of_Object_prototype :
  DepRegistry.search
    (DepRegistry.computeDeps Common.pkgRegex []
       [(lit "lodash",
         DepRegistry.mkEntry (DepRegistry.VString "4.17.4") [] []
           (strs ["map"; "toString"]))]) "map"
  = Js.Own (DepRegistry.mkDep "lodash" 1 DepRegistry.types.prop)
  /\ DepRegistry.search
       (DepRegistry.computeDeps Common.pkgRegex []
          [(lit "lodash",
            DepRegistry.mkEntry (DepRegistry.VString "4.17.4") [] []
              (strs ["map"; "toString"]))]) "toString"
     = Js.Inherited
  /\ DepRegistry.priorityOf Common.pkgRegex (strs ["fs"]) "constructor" = 3.
Proof. repeat split; vm_compute; reflexivity. Qed.

Section MoreRegistryFacts.
Import DepRegistry.
Variable pkgRegex : str -> bool.

Lemma ident_start_part (c : ascii) : ident_start c = true -> ident_part c = true.
Proof. unfold ident_part. now intros ->. Qed.

Lemma identRegex_chars (s : str) :
  identRegex s = true -> s <> [] /\ forallb ident_part s = true.
Proof.
  destruct s as [|c s]; [discriminate|]. cbn [identRegex forallb].
  intros H. apply andb_true_iff in H as [Hc Hs]. split; [discriminate|].
  now rewrite (ident_start_part c Hc), Hs.
Qed.

Lemma alnum_chars (s : str) :
  forallb Js.is_alnum s = true -> forallb ident_part s = true.
Proof.
  rewrite !forallb_forall. intros H c Hc. apply alnum_ident_part. auto.
Qed.

(** X4. Every name that [populateIdents] adds to an entry is a non-empty
    string of identifier characters (letters, digits, [_] and [$]), whatever
    the module id looks like. *)
Theorem populateIdents_names (entry : Entry) (i x : str) :
  In x (idents (populateIdents pkgRegex entry i)) ->
  In x (idents entry) \/ (x <> [] /\ forallb ident_part x = true).
Proof.
  unfold populateIdents, push. cbn [idents].
  set (base := baseOf pkgRegex i). set (camel := camelCaseOf base).
  pose proof (camelCaseOf_alnum base) as Halnum. fold camel in Halnum.
  assert (Hcamel : (0 <? List.length camel) = true ->
                   forall y, y = camel \/ y = Js.capitalize camel ->
                             y <> [] /\ forallb ident_part y = true).
  { intros Hlen y [->| ->].
    - split; [destruct camel; [discriminate|discriminate]|].
      now apply alnum_chars.
    - split; [destruct camel; [discriminate|discriminate]|].
      now apply alnum_chars, capitalize_alnum. }
  assert (Hbase : identRegex base = true ->
                  base <> [] /\ forallb ident_part base = true)
    by apply identRegex_chars.
  destruct (identRegex base), (0 <? List.length camel),
    (negb (str_eqb camel base));
    rewrite ?in_app_iff; cbn [In]; intuition (subst; auto).
Qed.

(** X5. An entry of the cache is reused exactly when its version is the
    current one: a project file whose cached entry has the current
    modification time keeps that entry, whatever its text now parses to; a
    file without such an entry gets a fresh one, filled from the analysis of
    its text. The same holds for a declared package and its probe. *)
Theorem cache_reused_iff_version (cache registry : Registry) :
  (forall f c,
     Js.get (file_path f) cache = Some c ->
     version c = VNumber (mtime f) ->
     Js.get (file_path f) (fillFile pkgRegex cache registry f) = Some c)
  /\ (forall f,
        (forall c, Js.get (file_path f) cache = Some c ->
                   version c <> VNumber (mtime f)) ->
        Js.get (file_path f) (fillFile pkgRegex cache registry f)
        = Some (populateFile pkgRegex (mkEntry (VNumber (mtime f)) [] [] [])
                  (file_path f) (parsed f)))
  /\ (forall p c,
        Js.get (pkg_id p) cache = Some c ->
        version c = VString (pkg_version p) ->
        Js.get (pkg_id p) (fillPackage pkgRegex cache registry p) = Some c)
  /\ (forall p,
        (forall c, Js.get (pkg_id p) cache = Some c ->
                   version c <> VString (pkg_version p)) ->
        Js.get (pkg_id p) (fillPackage pkgRegex cache registry p)
        = Some (populatePropsDefaults
                  (populateIdents pkgRegex
                     (mkEntry (VString (pkg_version p)) [] [] []) (pkg_id p))
                  (pkg_probe p))).
Proof.
  repeat split.
  - intros f c Hc Hv. unfold fillFile, register. rewrite Hc.
    rewrite (proj2 (version_eqb_eq _ _) Hv). apply get_set_same.
  - intros f Hc. unfold fillFile. rewrite (register_fresh _ _ _ _ Hc).
    apply get_set_same.
  - intros p c Hc Hv. unfold fillPackage, register. rewrite Hc.
    rewrite (proj2 (version_eqb_eq _ _) Hv). apply get_set_same.
  - intros p Hc. unfold fillPackage. rewrite (register_fresh _ _ _ _ Hc).
    apply get_set_same.
Qed.

End MoreRegistryFacts.

Lemma populateIdents_names_witness :
  In (lit "fooBar") (DepRegistry.idents fresh)
  \/ (lit "fooBar" <> [] /\ forallb DepRegistry.ident_part (lit "fooBar") = true).
Proof.
  apply (populateIdents_names Common.pkgRegex fresh "/proj/foo-bar.js").
  vm_compute. auto.
Defined.

Lemma cache_reused_iff_version_witness :
  Js.get "/proj/a.js"
    (DepRegistry.fillFile Common.pkgRegex
       [(lit "/proj/a.js",
         DepRegistry.mkEntry (DepRegistry.VNumber 5) (strs ["old"]) [] [])]
       []
       (DepRegistry.mkFile "/proj/a.js" 5
          (Some (DepRegistry.mkExports (strs ["new"]) [] [] true))))
  = Some (DepRegistry.mkEntry (DepRegistry.VNumber 5) (strs ["old"]) [] []).
Proof.
  apply (proj1 (cache_reused_iff_version Common.pkgRegex
                  [(lit "/proj/a.js",
                    DepRegistry.mkEntry (DepRegistry.VNumber 5) (strs ["old"])
                      [] [])]
                  [])
           (DepRegistry.mkFile "/proj/a.js" 5
              (Some (DepRegistry.mkExports (strs ["new"]) [] [] true)))
           (DepRegistry.mkEntry (DepRegistry.VNumber 5) (strs ["old"]) [] [])).
  - reflexivity.
  - reflexivity.
Defined.

(** ** The directory walk *)

Section PopulateDirFacts.
Import DepRegistry.
Import DepRegistryFs.

Lemma acceptedFiles_path :
  forall (e : DirEntry) (dir : str) (f : File),
    In f (acceptedFiles dir e) ->
    exists dirs file,
      file_path f = fold_left join (dirs ++ [file]) dir
      /\ Forall scannedDir dirs /\ scannedFile file.
Proof.
  fix IH 1. intros [file m p|file files|file] dir f H.
  - cbn [acceptedFiles] in H.
    destruct (startsWithDot file) eqn:Ed; [destruct H|].
    destruct (str_eqb (Path.extname file) ".js") eqn:E1.
    + destruct H as [<-|[]]. exists [], file. split; [reflexivity|].
      split; [constructor|]. split; [exact Ed|]. left.
      now apply str_eqb_eq.
    + destruct (str_eqb (Path.extname file) ".jsx") eqn:E2; [|destruct H].
      destruct H as [<-|[]]. exists [], file. split; [reflexivity|].
      split; [constructor|]. split; [exact Ed|]. right.
      now apply str_eqb_eq.
  - cbn [acceptedFiles] in H.
    destruct (startsWithDot file) eqn:Ed; [destruct H|].
    destruct (str_eqb file "node_modules") eqn:E1; [destruct H|].
    destruct (str_eqb file "bower_components") eqn:E2; [destruct H|].
    cbn [negb andb] in H.
    assert (Hdir : scannedDir file).
    { split; [exact Ed|]. split; now apply str_eqb_neq. }
    induction files as [|c files IHfiles]; [destruct H|].
    cbn [flat_map] in H. apply in_app_iff in H as [H|H].
    + destruct (IH c (join dir file) f H) as (dirs & name & Hp & Hd & Hf).
      exists (file :: dirs), name. split; [exact Hp|].
      split; [now constructor|exact Hf].
    + exact (IHfiles H).
  - destruct H.
Qed.

Variable pkgRegex : str -> bool.

Lemma get_fillFile_other (cache registry : Registry) (f : File) (i : str) :
  i <> file_path f ->
  Js.get i (fillFile pkgRegex cache registry f) = Js.get i registry.
Proof.
  intros Hne. unfold fillFile.
  destruct (register cache (file_path f) (VNumber (mtime f)) registry)
    as [r' o] eqn:R.
  assert (Hr : Js.get i r' = Js.get i registry).
  { unfold register in R.
    destruct (Js.get (file_path f) cache) as [c|];
      [destruct (version_eqb (version c) (VNumber (mtime f)))|];
      injection R as <- <-; now apply get_set_other. }
  destruct o as [e|]; [|exact Hr].
  rewrite get_set_other by exact Hne. exact Hr.
Qed.

(** X6. [populateDir] registers only source files of the project: a path it
    adds to the registry is [dir], then directories none of which is hidden,
    [node_modules] or [bower_components], then a file name that is not
    hidden and has the extension [.js] or [.jsx]. Every other id keeps the
    entry it had. *)
Theorem populateDir_registers_sources (cache : Registry) (dir : str)
  (files : list DirEntry) (registry : Registry) (i : str) :
  Js.get i (populateDir pkgRegex cache dir files registry) = Js.get i registry
  \/ exists dirs file,
       i = fold_left join (dirs ++ [file]) dir
       /\ Forall scannedDir dirs /\ scannedFile file.
Proof.
  unfold populateDir.
  assert (H : forall fs r,
             (forall f, In f fs -> In f (flat_map (acceptedFiles dir) files)) ->
             Js.get i (fold_left (fillFile pkgRegex cache) fs r) = Js.get i r
             \/ exists f, In f (flat_map (acceptedFiles dir) files)
                          /\ i = file_path f).
  { induction fs as [|f fs IHfs]; intros r Hin; [now left|].
    cbn [fold_left].
    destruct (IHfs (fillFile pkgRegex cache r f)
                (fun g Hg => Hin g (or_intror Hg))) as [E|E]; [|now right].
    destruct (list_eq_dec ascii_dec i (file_path f)) as [->|Hne].
    - right. exists f. split; [apply Hin; now left|reflexivity].
    - left. rewrite E. now apply get_fillFile_other. }
  destruct (H (flat_map (acceptedFiles dir) files) registry (fun f Hf => Hf))
    as [E|(f & Hf & ->)]; [now left|right].
  apply in_flat_map in Hf as (e & _ & He).
  exact (acceptedFiles_path e dir f He).
Qed.

End PopulateDirFacts.

Lemma populateDir_registers_sources_example :
  map fst (DepRegistryFs.populateDir Common.pkgRegex [] "/proj" tree_example [])
  = strs ["/proj/index.js"; "/proj/lib/util.jsx"].
Proof. vm_compute. reflexivity. Qed.

(** * Further properties of the rewriter *)

Section MissingIdentsFacts.
Import LibImporter.

Lemma uniq_fold (l acc : list str) :
  NoDup acc ->
  NoDup (fold_left
           (fun acc x => if existsb (str_eqb x) acc then acc else acc ++ [x])
           l acc)
  /\ forall x,
       In x (fold_left
               (fun acc x => if existsb (str_eqb x) acc then acc else acc ++ [x])
               l acc)
       <-> In x acc \/ In x l.
Proof.
  revert acc. induction l as [|y l IH]; intros acc Hnd.
  - split; [exact Hnd|]. intros x. cbn. tauto.
  - cbn [fold_left]. destruct (existsb (str_eqb y) acc) eqn:E.
    + destruct (IH acc Hnd) as [H1 H2]. split; [exact H1|].
      intros x. rewrite H2. cbn [In].
      apply existsb_exists in E as (z & Hz & Ez). apply str_eqb_eq in Ez.
      subst z. intuition (subst; auto).
    + assert (Hy : ~ In y acc).
      { intros Hy. assert (existsb (str_eqb y) acc = true); [|congruence].
        apply existsb_exists. exists y. split; [exact Hy|apply str_eqb_refl]. }
      assert (Hnd' : NoDup (acc ++ [y])).
      { apply NoDup_app; [exact Hnd|repeat constructor; intros []|].
        intros z Hz [<-|[]]. contradiction. }
      destruct (IH (acc ++ [y]) Hnd') as [H1 H2]. split; [exact H1|].
      intros x. rewrite H2, in_app_iff. cbn [In]. tauto.
Qed.

(** X7. [findMissingIdents] returns each name once, and returns exactly the
    names of the unresolved references that are neither operands of
    [typeof] nor written to, and that have no binding in the global scope. *)
Theorem findMissingIdents_exact (context : Context) :
  NoDup (findMissingIdents context)
  /\ forall n,
       In n (findMissingIdents context)
       <-> (exists ref,
              In ref (through (getGlobalScope context))
              /\ name ref = n /\ isTypeOf ref = false
              /\ writeExpr ref = false)
           /\ ~ In n (set (getGlobalScope context)).
Proof.
  unfold findMissingIdents, uniq.
  match goal with
  | |- NoDup (fold_left _ ?l []) /\ _ =>
      destruct (uniq_fold l [] (NoDup_nil _)) as [H1 H2]
  end.
  split; [exact H1|]. intros n. rewrite H2. cbn [In].
  rewrite filter_In, in_map_iff. split.
  - intros [[]|[(ref & <- & Hr) Hs]]. apply filter_In in Hr as [Hr Hc].
    apply andb_true_iff in Hc as [Ht Hw].
    apply negb_true_iff in Ht, Hw, Hs. split.
    + exists ref. repeat split; assumption.
    + intros Hin. assert (existsb (str_eqb (name ref))
                            (set (getGlobalScope context)) = true);
        [|congruence].
      apply existsb_exists. exists (name ref).
      split; [exact Hin|apply str_eqb_refl].
  - intros [(ref & Hr & <- & Ht & Hw) Hs]. right. split.
    + exists ref. split; [reflexivity|]. apply filter_In. split; [exact Hr|].
      fold (isTypeOf ref). now rewrite Ht, Hw.
    + apply negb_true_iff.
      destruct (existsb (str_eqb (name ref)) (set (getGlobalScope context)))
        eqn:E; [|reflexivity].
      apply existsb_exists in E as (z & Hz & Ez). apply str_eqb_eq in Ez.
      subst z. contradiction.
Qed.

End MissingIdentsFacts.

Section LinesFacts.
Import LibImporter.
Variable whiteRegex : str -> bool.

Lemma has_In (n : nat) (s : list nat) : has n s = true <-> In n s.
Proof.
  unfold has. rewrite existsb_exists. split.
  - intros (x & Hx & E). apply Nat.eqb_eq in E. now subst.
  - intros H. exists n. split; [exact H|apply Nat.eqb_refl].
Qed.

Lemma add_In (n x : nat) (s : list nat) : In x (add n s) <-> x = n \/ In x s.
Proof.
  unfold add. destruct (has n s) eqn:E.
  - apply has_In in E. intuition (subst; auto).
  - rewrite in_app_iff. cbn [In]. intuition.
Qed.

Lemma addAll_In (between : list nat) (x : nat) (s : list nat) :
  In x (fold_left (fun s j => add j s) between s) <-> In x between \/ In x s.
Proof.
  revert s. induction between as [|j between IH]; intros s; cbn [fold_left In].
  - tauto.
  - rewrite IH, add_In. intuition.
Qed.


Lemma removeExtraLines_marks (context : Context) (libsToAdd : Libs)
  (linesToRemove : list nat) :
  incl linesToRemove
    (removeExtraLines whiteRegex context libsToAdd linesToRemove)
  /\ forall l,
       In l (removeExtraLines whiteRegex context libsToAdd linesToRemove) ->
       In l linesToRemove
       \/ whiteRegex (toString (getLineText (textLines context) l)) = true.
Proof.
  unfold removeExtraLines.
  destruct (Js.sort_numbers linesToRemove) as [|first rest];
    [split; [apply incl_refl|auto]|].
  set (step := fun '(prevLine, lines) line =>
                 (line,
                  if forallb (isBlank whiteRegex (textLines context))
                       (range (prevLine + 1) line)
                  then fold_left (fun s j => add j s)
                         (range (prevLine + 1) line) lines
                  else lines)).
  assert (H : forall rest st,
             (incl linesToRemove (snd st)
              /\ forall l, In l (snd st) ->
                           In l linesToRemove
                           \/ isBlank whiteRegex (textLines context) l = true) ->
             incl linesToRemove (snd (fold_left step rest st))
             /\ forall l, In l (snd (fold_left step rest st)) ->
                          In l linesToRemove
                          \/ isBlank whiteRegex (textLines context) l = true).
  { clear rest. induction rest as [|line rest IH]; intros [prev ls] Hst;
      [exact Hst|].
    cbn [fold_left]. apply IH. cbn [step snd] in *.
    destruct Hst as [H1 H2].
    destruct (forallb (isBlank whiteRegex (textLines context))
                (range (prev + 1) line)) eqn:E; [|now split].
    split.
    - intros x Hx. apply addAll_In. right. now apply H1.
    - intros l Hl. apply addAll_In in Hl as [Hl|Hl]; [|now apply H2].
      right. rewrite forallb_forall in E. now apply E. }
  specialize (H rest (first, linesToRemove)).
  destruct (fold_left step rest (first, linesToRemove)) as [prev ls] eqn:F.
  cbn [snd] in H.
  destruct H as [H1 H2]; [split; [apply incl_refl|auto]|].
  destruct (forallb (fun kv => libIsEmpty (snd kv)) libsToAdd
            && isBlank whiteRegex (textLines context) (prev + 1)) eqn:E;
    [|now split].
  apply andb_true_iff in E as [_ E]. split.
  - intros x Hx. apply add_In. right. now apply H1.
  - intros l Hl. apply add_In in Hl as [->|Hl]; [now right|now apply H2].
Qed.

(** X8. [removeExtraLines] keeps every line already marked for removal and
    marks, besides them, only lines that [whiteRegex] accepts: no line with
    visible text is removed on its account. *)
Theorem removeExtraLines_only_blank (context : Context) (libsToAdd : Libs)
  (linesToRemove : list nat) :
  incl linesToRemove
    (removeExtraLines whiteRegex context libsToAdd linesToRemove)
  /\ forall l,
       In l (removeExtraLines whiteRegex context libsToAdd linesToRemove) ->
       In l linesToRemove
       \/ whiteRegex (toString (getLineText (textLines context) l)) = true.
Proof. exact (removeExtraLines_marks context libsToAdd linesToRemove). Qed.




End LinesFacts.

Section LibsFacts.
Import LibImporter.
Variable whiteRegex : str -> bool.












End LibsFacts.

Section KeysFacts.
Context {V : Type}.

Lemma keys_set (k k0 : str) (v : V) (o : Js.obj V) :
  In k (Js.keys (Js.set k0 v o)) -> k = k0 \/ In k (Js.keys o).
Proof.
  unfold Js.keys. induction o as [|[k1 v1] o IH]; cbn [Js.set map fst In].
  - intros [<-|[]]. now left.
  - destruct (str_eqb k0 k1) eqn:E; cbn [map fst In].
    + intros [<-|H]; [now left|right; now right].
    + intros [<-|H]; [right; now left|].
      destruct (IH H) as [->|H']; [now left|right; now right].
Qed.

Lemma keys_delete (k k0 : str) (o : Js.obj V) :
  In k (Js.keys (Js.delete k0 o)) -> In k (Js.keys o) /\ k <> k0.
Proof.
  unfold Js.keys. induction o as [|[k1 v1] o IH]; cbn [Js.delete map fst In];
    [intros []|].
  destruct (str_eqb k0 k1) eqn:E; cbn [map fst In].
  - intros H. destruct (IH H) as [H1 H2]. split; [now right|exact H2].
  - intros [<-|H].
    + split; [now left|]. apply str_eqb_neq in E. congruence.
    + destruct (IH H) as [H1 H2]. split; [now right|exact H2].
Qed.

Lemma get_None_keys (k : str) (o : Js.obj V) :
  Js.get k o = None -> ~ In k (Js.keys o).
Proof.
  unfold Js.keys. induction o as [|[k1 v1] o IH]; cbn [Js.get map fst In];
    [tauto|].
  destruct (str_eqb k k1) eqn:E; [discriminate|].
  intros H [H1|H1]; [|now apply IH].
  apply str_eqb_neq in E. congruence.
Qed.

Lemma keys_get (k : str) (o : Js.obj V) :
  In k (Js.keys o) -> exists v, Js.get k o = Some v.
Proof.
  intros H. destruct (Js.get k o) as [v|] eqn:G; [now exists v|].
  now apply get_None_keys in G.
Qed.

Lemma delete_Forall (P : str * V -> Prop) (k : str) (o : Js.obj V) :
  Forall P o -> Forall P (Js.delete k o).
Proof.
  induction 1 as [|[k1 v1] o H1 H IH]; cbn [Js.delete]; [constructor|].
  destruct (str_eqb k k1); [exact IH|now constructor].
Qed.

End KeysFacts.

Section RelativizeFacts.
Import LibImporter.
Variable fileRegex : str -> bool.
Variable relative : str -> str -> str.

Lemma relativeID_not_absolute (dir i : str) :
  Path.isAbsolute (relativeID relative dir i) = false.
Proof.
  unfold relativeID.
  destruct (replaceBackslashes (relative dir i)) as [|c s] eqn:E;
    [reflexivity|].
  destruct (Path.is_dot c) eqn:Ec; [|reflexivity].
  cbn [Path.isAbsolute]. unfold Path.is_dot in Ec. apply Ascii.eqb_eq in Ec.
  now subst c.
Qed.

(** X11. After [composeRequires] has made the ids relative no id is
    absolute: every id left is an id that was not absolute, or the relative
    form of an absolute one, which starts with a dot. *)
Theorem relativizeIDs_no_absolute (dir : str) (libs : Libs) (k : str) :
  In k (Js.keys (relativizeIDs relative dir libs)) ->
  Path.isAbsolute k = false
  /\ (In k (Js.keys libs)
      \/ exists i, In i (Js.keys libs) /\ Path.isAbsolute i = true
                   /\ k = relativeID relative dir i).
Proof.
  unfold relativizeIDs.
  set (step := fun (libs : Libs) (i : str) =>
                 if Path.isAbsolute i then
                   match Js.get i libs with
                   | Some lib =>
                       Js.delete i (Js.set (relativeID relative dir i) lib libs)
                   | None => libs
                   end
                 else libs).
  set (origin := fun k : str =>
                   In k (Js.keys libs)
                   \/ exists i, In i (Js.keys libs)
                                /\ Path.isAbsolute i = true
                                /\ k = relativeID relative dir i).
  assert (H : forall ks o,
             incl ks (Js.keys libs) ->
             (forall k, In k (Js.keys o) ->
                        (Path.isAbsolute k = true -> In k ks) /\ origin k) ->
             forall k, In k (Js.keys (fold_left step ks o)) ->
                       Path.isAbsolute k = false /\ origin k).
  { induction ks as [|i ks IH]; intros o Hks Ho k' Hk'.
    - cbn [fold_left] in Hk'. destruct (Ho k' Hk') as [H1 H2].
      split; [|exact H2].
      destruct (Path.isAbsolute k'); [destruct (H1 eq_refl)|reflexivity].
    - cbn [fold_left] in Hk'. revert k' Hk'.
      apply IH; [intros x Hx; apply Hks; now right|].
      intros x Hx. unfold step in Hx.
      destruct (Path.isAbsolute i) eqn:Ei.
      + destruct (Js.get i o) as [lib|] eqn:G.
        * apply keys_delete in Hx as [Hx Hne].
          apply keys_set in Hx as [->|Hx].
          -- split; [now rewrite relativeID_not_absolute|].
             right. exists i. split; [apply Hks; now left|]. now split.
          -- destruct (Ho x Hx) as [H1 H2]. split; [|exact H2].
             intros Ha. destruct (H1 Ha) as [E|Hin]; [congruence|exact Hin].
        * destruct (Ho x Hx) as [H1 H2]. split; [|exact H2].
          intros Ha. destruct (H1 Ha) as [E|Hin]; [|exact Hin].
          subst x. now apply get_None_keys in G.
      + destruct (Ho x Hx) as [H1 H2]. split; [|exact H2].
        intros Ha. destruct (H1 Ha) as [E|Hin]; [congruence|exact Hin]. }
  apply H; [apply incl_refl|].
  intros x Hx. split; [auto|now left].
Qed.

Lemma relativizeIDs_Forall (P : str * Lib -> Prop) (dir : str) (libs : Libs) :
  (forall k k' v, P (k, v) -> P (k', v)) ->
  Forall P libs -> Forall P (relativizeIDs relative dir libs).
Proof.
  intros HP. unfold relativizeIDs. generalize (Js.keys libs) as ks.
  intros ks. revert libs. induction ks as [|i ks IH]; intros libs H;
    [exact H|].
  cbn [fold_left]. apply IH. destruct (Path.isAbsolute i); [|exact H].
  destruct (Js.get i libs) as [lib|] eqn:G; [|exact H].
  apply delete_Forall, set_Forall; [|exact H].
  apply get_In in G. rewrite Forall_forall in H. exact (HP _ _ _ (H _ G)).
Qed.

Lemma statementsOf_empty (style : Style) (libs : Libs) (ids : list str) :
  Forall (fun kv => libIsEmpty (snd kv) = true) libs ->
  incl ids (Js.keys libs) ->
  statementsOf style libs ids = Ok [].
Proof.
  intros HP Hids. unfold statementsOf.
  rewrite (mapM_ok _ (fun _ => @nil str)).
  - cbn [bind]. f_equal. induction ids as [|i ids IH]; [reflexivity|].
    cbn. apply IH. intros x Hx. apply Hids. now right.
  - intros x Hx. destruct (keys_get x libs (Hids x Hx)) as (lib & G).
    rewrite G. apply get_In in G. rewrite Forall_forall in HP.
    pose proof (HP _ G) as E. cbn [snd] in E.
    unfold composeStatements. now rewrite E.
Qed.

(** X12. When no lib holds a name, the composed block is the empty string,
    and [composeRequires] does not throw. *)
Theorem composeRequires_nothing_to_add (style : Style) (dir : str)
  (libs : Libs) :
  Forall (fun kv => libIsEmpty (snd kv) = true) libs ->
  composeRequires fileRegex relative style dir libs = Ok [].
Proof.
  intros H. unfold composeRequires.
  assert (H' : Forall (fun kv => libIsEmpty (snd kv) = true)
                 (relativizeIDs relative dir libs))
    by (apply relativizeIDs_Forall; auto).
  rewrite !statementsOf_empty; try exact H'; [reflexivity| |].
  - intros x Hx.
    apply (Permutation_in _ (Permutation_sym (sort_perm _ _))) in Hx.
    apply filter_In in Hx. tauto.
  - intros x Hx.
    apply (Permutation_in _ (Permutation_sym (sort_perm _ _))) in Hx.
    apply filter_In in Hx. tauto.
Qed.

Lemma statementsOf_sorted (style : Style) (libs : Libs) (ids : list str) :
  Forall (fun kv => namedLib (snd kv)) libs ->
  incl ids (Js.keys libs) ->
  statementsOf style libs ids = Ok (flat_map (statementsFor style libs) ids).
Proof.
  intros HP Hids. unfold statementsOf.
  rewrite (mapM_ok _ (statementsFor style libs)).
  - cbn [bind]. now rewrite flat_map_concat_map.
  - intros x Hx. destruct (keys_get x libs (Hids x Hx)) as (lib & G).
    unfold statementsFor. rewrite G. apply get_In in G.
    rewrite Forall_forall in HP.
    apply (composeStatements_sorted style lib x). exact (HP _ G).
Qed.

(** The groups as the code forms them, on the ids as they are emitted. For
    libs whose names are not empty, the block is the statements of the ids
    that [fileRegex] rejects, then those of the ids it accepts, each id with
    its statements in the closed form and its names sorted; the statements
    are joined by line feeds, with one empty line between the two groups
    when both have statements. Each group holds the ids of its kind, ordered
    by basename and then by the full id. *)
Lemma composeRequires_groups_sorted (style : Style) (dir : str)
  (libs : Libs) :
  Forall (fun kv => namedLib (snd kv)) libs ->
  exists externalIDs localIDs,
    Permutation
      (filter (fun i => negb (fileRegex i))
         (Js.keys (relativizeIDs relative dir libs))) externalIDs
    /\ Permutation
         (filter fileRegex (Js.keys (relativizeIDs relative dir libs)))
         localIDs
    /\ StronglySorted byBasename externalIDs
    /\ StronglySorted byBasename localIDs
    /\ composeRequires fileRegex relative style dir libs
       = Ok (Js.join Js.NL
               (flat_map (statementsFor style (relativizeIDs relative dir libs))
                  externalIDs
                ++ (match
                      flat_map
                        (statementsFor style (relativizeIDs relative dir libs))
                        externalIDs,
                      flat_map
                        (statementsFor style (relativizeIDs relative dir libs))
                        localIDs
                    with
                    | _ :: _, _ :: _ => [[]]
                    | _, _ => []
                    end)
                ++ flat_map
                     (statementsFor style (relativizeIDs relative dir libs))
                     localIDs)).
Proof.
  intros HP. unfold composeRequires.
  set (libs' := relativizeIDs relative dir libs).
  assert (HP' : Forall (fun kv => namedLib (snd kv)) libs')
    by (apply relativizeIDs_Forall; auto).
  set (ext := Js.sort compareByBasename
                (filter (fun i => negb (fileRegex i)) (Js.keys libs'))).
  set (loc := Js.sort compareByBasename (filter fileRegex (Js.keys libs'))).
  exists ext, loc.
  split; [apply sort_perm|]. split; [apply sort_perm|].
  split; [apply sort_byBasename|]. split; [apply sort_byBasename|].
  rewrite !statementsOf_sorted; try exact HP'.
  - cbn [bind]. do 2 f_equal.
    destruct (flat_map (statementsFor style libs') ext),
      (flat_map (statementsFor style libs') loc); reflexivity.
  - intros x Hx.
    apply (Permutation_in _ (Permutation_sym (sort_perm _ _))) in Hx.
    apply filter_In in Hx. tauto.
  - intros x Hx.
    apply (Permutation_in _ (Permutation_sym (sort_perm _ _))) in Hx.
    apply filter_In in Hx. tauto.
Qed.

End RelativizeFacts.

Section CountFacts.
Import LibImporter.

Lemma mapi_from_length {A B} (f : A -> nat -> B) (l : list A) (i : nat) :
  List.length (Js.mapi_from i f l) = List.length l.
Proof.
  revert i. induction l as [|x l IH]; intros i; cbn; [reflexivity|].
  now rewrite IH.
Qed.

Lemma sort_strings_length (l : list str) :
  List.length (Js.sort_strings l) = List.length l.
Proof. symmetry. apply Permutation_length, sort_strings_perm. Qed.

(** X13. A lib gets one statement for each ident and each default and a
    single destructuring statement for all its props in the [require] style;
    in the [import] style the props share a statement with the first default
    and the remaining defaults pair up with the idents. No statement is
    emitted for a lib without names, and composing does not throw. *)
Theorem composeStatements_count (style : Style) (lib : Lib) (i : str) :
  namedLib lib ->
  exists statements,
    composeStatements style lib i = Ok statements
    /\ List.length statements
       = let b := if 0 <? List.length (lib_props lib) then 1 else 0 in
         if str_eqb (requireKeyword style) "require"
         then List.length (lib_idents lib) + List.length (lib_defaults lib) + b
         else b + Nat.max (List.length (lib_defaults lib) - b)
                    (List.length (lib_idents lib)).
Proof.
  intros Hn. rewrite (composeStatements_sorted style lib i Hn).
  eexists. split; [reflexivity|]. cbv zeta.
  destruct (libIsEmpty lib) eqn:E.
  - unfold libIsEmpty in E. apply andb_true_iff in E as [E E3].
    apply andb_true_iff in E as [E1 E2]. apply Nat.eqb_eq in E1, E2, E3.
    rewrite E1, E2, E3. now destruct (str_eqb (requireKeyword style) "require").
  - unfold statementsSorted. cbv zeta.
    rewrite (sort_strings_length (lib_props lib)).
    destruct (str_eqb (requireKeyword style) "require").
    + rewrite !length_app, !length_map, !sort_strings_length.
      destruct (0 <? List.length (lib_props lib)); cbn [List.length]; lia.
    + unfold Js.mapi.
      destruct (0 <? List.length (lib_props lib));
        rewrite !length_app, !length_map, !mapi_from_length, !length_skipn,
          ?length_skipn, !sort_strings_length; cbn [List.length]; lia.
Qed.

End CountFacts.

Section EmitFacts.
Import LibImporter.

Lemma linesText_one (x : str) : linesText [x] = x ++ Js.NL.
Proof. unfold linesText. cbn. now rewrite app_nil_r. Qed.

Lemma emitLines_loop (linesToRemove : list nat) (targetLine : option nat)
  (requiresText : str) (post pre : list str) (acc : str) :
  fold_left
    (fun newCode line =>
       let newCode1 :=
         if negb (has line linesToRemove)
         then newCode +++ toString (getLineText (pre ++ post) line) +++ Js.NL
         else newCode in
       if match targetLine with Some t => line =? t | None => false end
          && (0 <? List.length requiresText)
       then newCode1 +++ requiresText +++ Js.NL
       else newCode1)
    (seq (S (List.length pre)) (List.length post)) acc
  = acc ++ emittedFrom linesToRemove targetLine requiresText
             (S (List.length pre)) post.
Proof.
  revert pre acc. induction post as [|x post IH]; intros pre acc.
  - simpl. now rewrite app_nil_r.
  - cbn [List.length seq fold_left emittedFrom].
    replace (pre ++ x :: post) with ((pre ++ [x]) ++ post)
      by (now rewrite <- app_assoc).
    replace (S (S (List.length pre))) with (S (List.length (pre ++ [x])))
      by (rewrite length_app; simpl; lia).
    rewrite IH. cbn [getLineText].
    assert (E : nth_error ((pre ++ [x]) ++ post) (List.length pre) = Some x).
    { rewrite <- app_assoc, nth_error_app2 by lia.
      now rewrite Nat.sub_diag. }
    rewrite E. cbn [toString]. unfold blockText, cat.
    destruct (has (S (List.length pre)) linesToRemove),
      (match targetLine with
       | Some t => S (List.length pre) =? t
       | None => false
       end), (0 <? List.length requiresText);
      cbn [negb andb]; rewrite <- ?app_assoc, ?app_nil_r; reflexivity.
Qed.

Lemma emittedFrom_kept (linesToRemove : list nat) (targetLine : option nat)
  (requiresText : str) (lines : list str) (k : nat) :
  match targetLine with
  | Some t => t < k \/ k + List.length lines <= t
  | None => True
  end ->
  emittedFrom linesToRemove targetLine requiresText k lines
  = linesText (keptFrom linesToRemove k lines).
Proof.
  revert k. induction lines as [|x lines IH]; intros k Ht; [reflexivity|].
  cbn [emittedFrom keptFrom List.length] in *.
  assert (E : match targetLine with Some t => k =? t | None => false end
              = false).
  { destruct targetLine as [t|]; [|reflexivity]. apply Nat.eqb_neq. lia. }
  rewrite E, IH by (destruct targetLine; [lia|exact I]).
  rewrite linesText_app.
  destruct (has k linesToRemove); [reflexivity|].
  now rewrite linesText_one.
Qed.

Lemma emittedFrom_target (linesToRemove : list nat) (requiresText : str)
  (t : nat) (lines : list str) (k : nat) :
  k <= t -> t < k + List.length lines ->
  emittedFrom linesToRemove (Some t) requiresText k lines
  = linesText (keptFrom linesToRemove k (firstn (S t - k) lines))
    ++ blockText requiresText
    ++ linesText (keptFrom linesToRemove (S t) (skipn (S t - k) lines)).
Proof.
  revert k. induction lines as [|x lines IH]; intros k H1 H2;
    [cbn in H2; lia|].
  cbn [emittedFrom List.length] in *.
  replace (S t - k) with (S (t - k)) by lia. cbn [firstn skipn keptFrom].
  rewrite linesText_app.
  assert (Ex : (if has k linesToRemove then [] else x ++ Js.NL)
               = linesText (if has k linesToRemove then [] else [x])).
  { destruct (has k linesToRemove); [reflexivity|].
    now rewrite linesText_one. }
  rewrite Ex. destruct (Nat.eqb_spec k t) as [->|Hne].
  - rewrite Nat.sub_diag. cbn [firstn skipn keptFrom].
    rewrite (emittedFrom_kept linesToRemove (Some t) requiresText lines (S t))
      by lia.
    change (linesText []) with (@nil ascii).
    now rewrite app_nil_r.
  - rewrite (IH (S k)) by lia.
    replace (S t - S k) with (t - k) by lia.
    cbn [app]. now rewrite <- !app_assoc.
Qed.

Lemma emitLines_emitted (textLines : list str) (linesToRemove : list nat)
  (targetLine : option nat) (requiresText : str) :
  has 0 linesToRemove = true ->
  emitLines textLines linesToRemove targetLine requiresText
  = (if match targetLine with Some t => 0 =? t | None => false end
     then blockText requiresText else [])
    ++ emittedFrom linesToRemove targetLine requiresText 1 textLines.
Proof.
  intros H0. unfold emitLines. cbn [seq fold_left]. rewrite H0.
  cbn [negb].
  rewrite (emitLines_loop linesToRemove targetLine requiresText textLines []).
  cbn [List.length]. unfold blockText, cat.
  destruct (match targetLine with Some t => 0 =? t | None => false end),
    (0 <? List.length requiresText); cbn [andb app]; reflexivity.
Qed.

(** The line loop, for a target line inside the text. *)
Lemma emitLines_at (textLines : list str) (linesToRemove : list nat)
  (t : nat) (requiresText : str) :
  has 0 linesToRemove = true -> t <= List.length textLines ->
  emitLines textLines linesToRemove (Some t) requiresText
  = linesText (keptFrom linesToRemove 1 (firstn t textLines))
    ++ blockText requiresText
    ++ linesText (keptFrom linesToRemove (S t) (skipn t textLines)).
Proof.
  intros H0 Ht. rewrite emitLines_emitted by exact H0.
  destruct t as [|t].
  - cbn [Nat.eqb firstn skipn keptFrom]. rewrite emittedFrom_kept by lia.
    reflexivity.
  - cbn [Nat.eqb app]. rewrite emittedFrom_target by lia.
    now replace (S (S t) - 1) with (S t) by lia.
Qed.


(** X14. The line loop of [rewriteCode] emits every line that is not marked
    for removal, once and in order, and the block right after the target
    line. When no target line is set, or when it lies beyond the last line,
    the block is not emitted at all. *)
Theorem emitLines_keeps_order (textLines : list str)
  (linesToRemove : list nat) (requiresText : str) :
  has 0 linesToRemove = true ->
  (forall t,
     t <= List.length textLines ->
     emitLines textLines linesToRemove (Some t) requiresText
     = linesText (keptFrom linesToRemove 1 (firstn t textLines))
       ++ blockText requiresText
       ++ linesText (keptFrom linesToRemove (S t) (skipn t textLines)))
  /\ (forall t,
        List.length textLines < t ->
        emitLines textLines linesToRemove (Some t) requiresText
        = linesText (keptFrom linesToRemove 1 textLines))
  /\ emitLines textLines linesToRemove None requiresText
     = linesText (keptFrom linesToRemove 1 textLines).
Proof.
  intros H0. split; [|split].
  - intros t Ht. now apply emitLines_at.
  - intros t Ht. rewrite emitLines_emitted by exact H0.
    destruct t as [|t]; [lia|]. cbn [Nat.eqb app].
    apply emittedFrom_kept. lia.
  - rewrite emitLines_emitted by exact H0. cbn [app].
    now apply emittedFrom_kept.
Qed.

End EmitFacts.


Section PlacementFacts.
Import LibImporter.
Variable fileRegex : str -> bool.
Variable whiteRegex : str -> bool.
Variable relative : str -> str -> str.






End PlacementFacts.


(** Below a directive that has its line to itself. *)
Example rewriteCode_adds_block_below_directive :
  LibImporter.rewriteCode Common.fileRegex Common.whiteRegex Path.relative
    strictContext searchFoo "/proj"
  = Ok (useStrictOnly ++ Js.NL ++ Js.NL ++ requireBar ++ Js.NL ++ Js.NL
        ++ lit "foo();" ++ Js.NL).
Proof. vm_compute. reflexivity. Qed.

Section OldRewriteFacts.
Import LibImporter.
Variable composeRequires : Libs -> str -> result str.

Lemma oldLoop_from (requiresText tail : str) (post pre : list str)
  (acc : str) :
  fold_left
    (fun newCode line =>
       let newCode1 :=
         if negb (has line [0])
         then newCode +++ nth line ([] :: pre ++ post) [] +++ Js.NL
         else newCode in
       if (line =? 0) && (0 <? List.length requiresText)
       then newCode1 +++ requiresText +++ tail
       else newCode1)
    (seq (S (List.length pre)) (List.length post)) acc
  = acc ++ linesText post.
Proof.
  revert pre acc. induction post as [|x post IH]; intros pre acc.
  - simpl. now rewrite app_nil_r.
  - cbn [List.length seq fold_left].
    replace (pre ++ x :: post) with ((pre ++ [x]) ++ post)
      by (now rewrite <- app_assoc).
    replace (S (S (List.length pre))) with (S (List.length (pre ++ [x])))
      by (rewrite length_app; simpl; lia).
    rewrite IH. cbn [has existsb Nat.eqb orb negb andb nth].
    assert (E : @nth (list ascii) (List.length pre) ((pre ++ [x]) ++ post) []
                = x).
    { rewrite <- app_assoc.
      rewrite (@app_nth2 (list ascii)) by apply Nat.le_refl.
      now rewrite Nat.sub_diag. }
    rewrite E, linesText_cons.
    unfold cat. now rewrite <- !app_assoc.
Qed.

(** X17. The importer of [src/importer.js], for a file without imports:
    a block that is not empty goes to the top of the file, followed by one
    blank line, wherever the file's directives are; every line of the file
    is kept, in order. *)
Theorem old_rewriteCode_prepends (lines missingIdents : list str)
  (search : str -> option DepRegistry.DepInfo) (dir : str)
  (libs : Libs) (linesToRemove : list nat) (block : str) :
  Importer.resolveIdents missingIdents search []
  = Ok (libs, linesToRemove) ->
  composeRequires libs dir = Ok block ->
  Importer.rewriteCode composeRequires lines [] missingIdents search dir
  = Ok (finishNewline
          ((if 0 <? List.length block then block ++ Js.NL ++ Js.NL else [])
           ++ linesText lines)).
Proof.
  intros Hr Hc. unfold Importer.rewriteCode. rewrite Hr. cbn [bind].
  assert (El : linesToRemove = []).
  { unfold Importer.resolveIdents in Hr. cbn [map flat_map app] in Hr.
    match type of Hr with
    | bind ?m _ = _ => destruct m; cbn [bind] in Hr; [|discriminate]
    end.
    now injection Hr as _ <-. }
  subst linesToRemove. rewrite Hc. cbn [bind]. unfold Importer.emitLines.
  change (add 0 []) with [0]. cbn [List.length seq fold_left].
  cbn [has existsb Nat.eqb orb negb andb Nat.ltb Nat.leb].
  rewrite (oldLoop_from block (Js.NL +++ Js.NL) lines []).
  unfold cat. destruct (0 <? List.length block); cbn [andb app];
    [now rewrite <- ?app_assoc|reflexivity].
Qed.

End OldRewriteFacts.

Lemma old_rewriteCode_prepends_witness :
  Importer.rewriteCode (fun _ _ => Ok requireBar) (strs ["foo();"]) []
    (strs ["foo"]) searchFoo "/proj"
  = Ok (requireBar ++ Js.NL ++ Js.NL ++ lit "foo();" ++ Js.NL).
Proof.
  etransitivity.
  - eapply (old_rewriteCode_prepends (fun _ _ => Ok requireBar)
              (strs ["foo();"]) (strs ["foo"]) searchFoo "/proj").
    + cbv. reflexivity.
    + reflexivity.
  - vm_compute. reflexivity.
Defined.


Lemma removeExtraLines_only_blank_witness :
  In 2 (LibImporter.removeExtraLines Common.whiteRegex importsContext []
          [2; 4]).
Proof.
  apply (proj1 (removeExtraLines_only_blank Common.whiteRegex importsContext
                  [] [2; 4]) 2).
  left. reflexivity.
Defined.



Lemma relativizeIDs_no_absolute_witness :
  Path.isAbsolute (lit "./lib/b.js") = false
  /\ (In (lit "./lib/b.js") (Js.keys libs_example)
      \/ exists i, In i (Js.keys libs_example) /\ Path.isAbsolute i = true
                   /\ lit "./lib/b.js"
                      = LibImporter.relativeID Path.relative "/proj" i).
Proof.
  apply (relativizeIDs_no_absolute Path.relative "/proj" libs_example
           "./lib/b.js").
  vm_compute. right. right. left. reflexivity.
Defined.

Lemma composeRequires_nothing_to_add_witness :
  LibImporter.composeRequires Common.fileRegex Path.relative style_require
    "/proj" [(lit "zlib", LibImporter.mkLib [] [] [])]
  = Ok [].
Proof.
  apply (composeRequires_nothing_to_add Common.fileRegex Path.relative
           style_require "/proj" [(lit "zlib", LibImporter.mkLib [] [] [])]).
  repeat constructor.
Defined.

Lemma composeStatements_count_witness :
  exists statements,
    LibImporter.composeStatements style_require
      (LibImporter.mkLib (strs ["b"]) [] (strs ["x"; "y"])) "zlib"
    = Ok statements
    /\ List.length statements = 2.
Proof.
  apply (composeStatements_count style_require
           (LibImporter.mkLib (strs ["b"]) [] (strs ["x"; "y"])) "zlib").
  repeat split; repeat constructor; discriminate.
Defined.

Lemma emitLines_keeps_order_witness :
  LibImporter.emitLines (strs ["a"; "b"]) [0; 2] None "x"
  = linesText (keptFrom [0; 2] 1 (strs ["a"; "b"])).
Proof.
  apply (emitLines_keeps_order (strs ["a"; "b"]) [0; 2] "x").
  reflexivity.
Defined.

